(** * Bookstore order pricing: a shallow embedding of [bookstore.py]

    The development follows the Python module class by class.  Objects that
    Python shares by reference ([Discount] and [Customer] instances) live in
    the [MasterData] store and are named by their position in it; a raised
    exception leaves the store as mutated so far, exactly as in Python.
    Prices and rates, Python floats in the source, are exact rationals here:
    the arithmetic and the comparison with 50 are those of the source, the
    rounding error of binary floating point is not modelled.  The clock
    ([datetime.now()]) and the geocoding service are parameters. *)

From Stdlib Require Import ZArith QArith Qround Bool List Sorted Ascii String Lia Lqa.
From stdpp Require Import base list strings.
Import ListNotations.

Local Open Scope Z_scope.

(** ** Calendar dates ([datetime.date]) *)

Module PyDate.

Record date := mkdate { year : Z; month : Z; day : Z }.

Definition is_leap (y : Z) : bool :=
  (y mod 4 =? 0) && (negb (y mod 100 =? 0) || (y mod 400 =? 0)).

Definition days_before_year (y : Z) : Z :=
  let y := y - 1 in y * 365 + y / 4 - y / 100 + y / 400.

Definition days_in_month (y m : Z) : Z :=
  if m =? 2 then (if is_leap y then 29 else 28)
  else if (m =? 4) || (m =? 6) || (m =? 9) || (m =? 11) then 30 else 31.

Definition days_before_month (y m : Z) : Z :=
  fold_right Z.add 0
    (map (fun k => days_in_month y (Z.of_nat k)) (seq 1 (Z.to_nat (m - 1)))).

(** [date.toordinal()]: 1 for 0001-01-01. *)
Definition toordinal (d : date) : Z :=
  days_before_year (year d) + days_before_month (year d) (month d) + day d.

(** [(a - b).days] *)
Definition days_between (a b : date) : Z := toordinal a - toordinal b.

Definition eqb (a b : date) : bool :=
  (year a =? year b) && (month a =? month b) && (day a =? day b).

(** A [datetime]: a calendar date and the microseconds elapsed in that day. *)
Record datetime := mkdatetime { date_of : date; micros_of : Z }.

Definition timestamp (t : datetime) : Z :=
  toordinal (date_of t) * 86400000000 + micros_of t.

Definition leb (a b : datetime) : bool := timestamp a <=? timestamp b.

End PyDate.

Export PyDate(date, mkdate, year, month, day, datetime, mkdatetime, date_of, micros_of).

(** ** Strings: [str.lower] on the ASCII range *)

Definition lower_ascii (c : ascii) : ascii :=
  let n := nat_of_ascii c in
  if ((65 <=? n) && (n <=? 90))%nat then ascii_of_nat (n + 32) else c.

Fixpoint lower (s : string) : string :=
  match s with
  | EmptyString => EmptyString
  | String c s' => String (lower_ascii c) (lower s')
  end.

(** [str.isascii]: every character is below 128.  On such strings [lower]
    is [str.lower]. *)
Definition isascii (s : string) : bool :=
  forallb (fun c => (nat_of_ascii c <? 128)%nat) (list_ascii_of_string s).

(** ** The records of the module *)

(** A reference to a [Discount] object: [None] is Python's [None], [Some i]
    is the object stored at position [i] of [master_data.discounts]. *)
Definition ref := option nat.

Record Discount := mkDiscount {
  d_id : Z;
  d_start_valid : datetime;
  d_end_valid : datetime;
  d_amount : Q;
  d_nb_usage : Z;
  d_coupon_code : option string;
  d_author_specific : option string
}.

Record Book := mkBook { b_title : string; b_author : string; b_price : Q }.

(** [Order.customer] names a customer by its position in
    [master_data.customers]; a line whose book lookup failed carries [None]. *)
Record Order := mkOrder {
  o_books : list (option Book * Z);
  o_customer : option nat
}.

Record Customer := mkCustomer {
  c_username : string;
  c_location : string;
  c_signup_date : date;
  c_discounts : list ref;
  c_order : option Order
}.

Record MasterData := mkMasterData {
  md_books : list Book;
  md_discounts : list Discount;
  md_customers : list Customer
}.

Definition with_nb_usage (d : Discount) (n : Z) : Discount :=
  mkDiscount (d_id d) (d_start_valid d) (d_end_valid d) (d_amount d) n
             (d_coupon_code d) (d_author_specific d).

Definition with_author_specific (d : Discount) (a : option string) : Discount :=
  mkDiscount (d_id d) (d_start_valid d) (d_end_valid d) (d_amount d)
             (d_nb_usage d) (d_coupon_code d) a.

Definition with_discounts (c : Customer) (l : list ref) : Customer :=
  mkCustomer (c_username c) (c_location c) (c_signup_date c) l (c_order c).

Definition with_order (c : Customer) (o : option Order) : Customer :=
  mkCustomer (c_username c) (c_location c) (c_signup_date c) (c_discounts c) o.

Definition with_md_discounts (s : MasterData) (l : list Discount) : MasterData :=
  mkMasterData (md_books s) l (md_customers s).

Definition with_md_customers (s : MasterData) (l : list Customer) : MasterData :=
  mkMasterData (md_books s) (md_discounts s) l.

(** ** Exceptions and the store monad *)

(** [AttributeError]: an attribute of [None] was read or written.
    [InvalidRef]: a position outside the store, which no Python run can
    produce (references only come from the store itself). *)
Inductive exn := AttributeError | InvalidRef.

Inductive outcome (A : Type) :=
| Return (a : A)
| Raise (e : exn).
Arguments Return {A} a.
Arguments Raise {A} e.

Definition M (A : Type) : Type := MasterData -> outcome A * MasterData.

Definition ret {A} (a : A) : M A := fun s => (Return a, s).

Definition raise {A} (e : exn) : M A := fun s => (Raise e, s).

Definition bind {A B} (m : M A) (f : A -> M B) : M B :=
  fun s => match m s with
           | (Return a, s') => f a s'
           | (Raise e, s') => (Raise e, s')
           end.

Notation "'let*' x ':=' m 'in' k" := (bind m (fun x => k))
  (at level 10, x name, m at level 200, k at level 200).

Definition get : M MasterData := fun s => (Return s, s).
Definition put (s : MasterData) : M unit := fun _ => (Return tt, s).

(** Reading an attribute of the object a reference points to. *)
Definition deref (r : ref) : M Discount :=
  match r with
  | None => raise AttributeError
  | Some i =>
      let* s := get in
      match md_discounts s !! i with
      | Some d => ret d
      | None => raise InvalidRef
      end
  end.

Definition attr {A} (o : option A) : M A :=
  match o with
  | None => raise AttributeError
  | Some a => ret a
  end.

Definition get_customer (c : nat) : M Customer :=
  let* s := get in
  match md_customers s !! c with
  | Some cu => ret cu
  | None => raise InvalidRef
  end.

(** [r.nb_usage = n] *)
Definition set_nb_usage (r : ref) (n : Z) : M unit :=
  let* d := deref r in
  let* s := get in
  match r with
  | Some i => put (with_md_discounts s (<[i := with_nb_usage d n]> (md_discounts s)))
  | None => raise AttributeError
  end.

(** [r.author_specific = a] *)
Definition set_author_specific (r : ref) (a : option string) : M unit :=
  let* d := deref r in
  let* s := get in
  match r with
  | Some i =>
      put (with_md_discounts s (<[i := with_author_specific d a]> (md_discounts s)))
  | None => raise AttributeError
  end.

(** [customer.discounts = l] *)
Definition set_discounts (c : nat) (l : list ref) : M unit :=
  let* cu := get_customer c in
  let* s := get in
  put (with_md_customers s (<[c := with_discounts cu l]> (md_customers s))).

(** [list(filter(p, l))] for a predicate that may raise. *)
Fixpoint filterM {A} (p : A -> M bool) (l : list A) : M (list A) :=
  match l with
  | [] => ret []
  | x :: l' =>
      let* b := p x in
      let* r := filterM p l' in
      ret (if b then x :: r else r)
  end.

(** [next(filter(p, l), None)] over a list of references. *)
Fixpoint next_or_none (p : ref -> M bool) (l : list ref) : M ref :=
  match l with
  | [] => ret None
  | x :: l' =>
      let* b := p x in
      if b then ret x else next_or_none p l'
  end.

(** [for x in l: acc = f(acc, x)] *)
Fixpoint foldM {A B} (f : A -> B -> M A) (l : list B) (acc : A) : M A :=
  match l with
  | [] => ret acc
  | x :: l' => let* acc' := f acc x in foldM f l' acc'
  end.

(** ** class Discount *)

(** The [valid] property; [now] stands for [datetime.now()]. *)
Definition valid (now : datetime) (d : Discount) : bool :=
  PyDate.leb (d_start_valid d) now && PyDate.leb now (d_end_valid d).

(** Truth value of an [author_specific] field: [None] and the empty string
    are false. *)
Definition truthy (a : option string) : bool :=
  match a with
  | Some s => negb (String.eqb s "")
  | None => false
  end.

(** [a == s] for an optional string [a] and a string [s]. *)
Definition eq_author (a : option string) (s : string) : bool :=
  match a with
  | Some s' => String.eqb s' s
  | None => false
  end.

(** [x < y] on rationals, as a boolean. *)
Definition Qltb (x y : Q) : bool :=
  match (x ?= y)%Q with
  | Lt => true
  | _ => false
  end.

(** ** class Shipping *)

Section Pricing.

(** [Shipping.calculate_distance] asks a geocoding service; it is kept
    abstract: a distance in kilometres, or [None] when a place is unknown. *)
Variable calculate_distance : string -> string -> option Q.

Definition shipping_cost (store_location customer_location : string) : Q :=
  match calculate_distance store_location customer_location with
  | Some distance => ((2 # 100) * distance)%Q
  | None => 0%Q
  end.

(** ** class Order *)

(** [round(x, 2)]: nearest multiple of 1/100, ties to the even one. *)
Definition round_half_even (q : Q) : Z :=
  let f := Qfloor q in
  match (q - inject_Z f ?= 1 # 2)%Q with
  | Lt => f
  | Gt => f + 1
  | Eq => if Z.even f then f else f + 1
  end.

Definition round2 (q : Q) : Q :=
  (inject_Z (round_half_even (q * 100)) / 100)%Q.

(** [self.customer], as the receiver of an attribute access. *)
Definition customer_of (self : Order) : M nat := attr (o_customer self).

(** Lines 109 and 110: the two lists computed from [self.customer.discounts]
    before any line is priced. *)
Definition author_specific_discounts (now : datetime) (self : Order) : M (list ref) :=
  let* c := customer_of self in
  let* cu := get_customer c in
  filterM (fun discount =>
             let* d := deref discount in
             ret (valid now d && truthy (d_author_specific d)))
          (c_discounts cu).

Definition valid_discounts (now : datetime) (self : Order) : M (list ref) :=
  let* c := customer_of self in
  let* cu := get_customer c in
  filterM (fun discount =>
             let* d := deref discount in
             ret (valid now d && negb (truthy (d_author_specific d))))
          (c_discounts cu).

(** Lines 122 and 130:
    [self.customer.discounts = list(filter(lambda x: x.id != r.id, self.customer.discounts))] *)
Definition remove_discount (self : Order) (r : ref) : M unit :=
  let* c := customer_of self in
  let* cu := get_customer c in
  let* l := filterM (fun x =>
                       let* dx := deref x in
                       let* dr := deref r in
                       ret (negb (d_id dx =? d_id dr)))
                    (c_discounts cu) in
  set_discounts c l.

(** [r.nb_usage -= 1], then the removal when the counter is 0
    (lines 119-122 and 127-130). *)
Definition use_discount (self : Order) (r : ref) : M unit :=
  let* d := deref r in
  let* _ := set_nb_usage r (d_nb_usage d - 1) in
  let* d' := deref r in
  if d_nb_usage d' =? 0 then remove_discount self r else ret tt.

(** The body of the loop over [self.books] (lines 115-122). *)
Definition price_line (self : Order) (asd : list ref)
           (total_price : Q) (line : option Book * Z) : M Q :=
  let book := fst line in
  let quantity := snd line in
  let* psd := next_or_none
                (fun discount =>
                   let* d := deref discount in
                   let* b := attr book in
                   ret (eq_author (d_author_specific d) (b_author b)))
                asd in
  let* discount := match psd with
                   | Some _ => let* d := deref psd in ret (1 - d_amount d)%Q
                   | None => ret 1%Q
                   end in
  let* b := attr book in
  let total_price := (total_price + b_price b * discount * inject_Z quantity)%Q in
  let* _ := match psd with
            | Some _ => use_discount self psd
            | None => ret tt
            end in
  ret total_price.

(** The body of the loop over [valid_discounts] (lines 126-130). *)
Definition apply_discount (self : Order) (total_price : Q) (discount : ref) : M Q :=
  let* d := deref discount in
  let total_price := (total_price * (1 - d_amount d))%Q in
  let* _ := use_discount self discount in
  ret total_price.

(** The loop of lines 113-122, from [total_price = 0]. *)
Definition price_lines (self : Order) (asd : list ref) : M Q :=
  foldM (price_line self asd) (o_books self) 0%Q.

(** The loop of lines 125-130. *)
Definition apply_discounts (self : Order) (vd : list ref) (total_price : Q) : M Q :=
  foldM (apply_discount self) vd total_price.

(** Lines 109-130: the running total before shipping. *)
Definition total_before_shipping (now : datetime) (self : Order) : M Q :=
  let* asd := author_specific_discounts now self in
  let* vd := valid_discounts now self in
  let* total_price := price_lines self asd in
  apply_discounts self vd total_price.

(** Lines 133-136. *)
Definition add_shipping (self : Order) (total_price : Q) : M Q :=
  let* c := customer_of self in
  let* cu := get_customer c in
  let shipping_cost := shipping_cost "paris" (c_location cu) in
  let shipping_cost := if Qltb 50 total_price then 0%Q else shipping_cost in
  ret (round2 (total_price + shipping_cost)).

Definition calculate_total_price (now : datetime) (self : Order) : M Q :=
  let* total_price := total_before_shipping now self in
  add_shipping self total_price.

End Pricing.

(** ** class Customer *)

Definition add_book (o : Order) (book : option Book) (quantity : Z) : Order :=
  mkOrder (o_books o ++ [(book, quantity)]) (o_customer o).

Definition set_order (c : nat) (o : Order) : M unit :=
  let* cu := get_customer c in
  let* s := get in
  put (with_md_customers s (<[c := with_order cu (Some o)]> (md_customers s))).

(** [Customer.place_order]: the new order is reachable only through the
    customer, so it is built first and stored with its lines. *)
Definition place_order (self : nat) (books_selected : list (option Book * Z)) : M unit :=
  let order := mkOrder [] (Some self) in
  let order := fold_left (fun o line => add_book o (fst line) (snd line))
                         books_selected order in
  set_order self order.

(** ** class Store *)

(** Positions, counted from [i], of the elements of [l] that satisfy [p]. *)
Fixpoint positions {A} (p : A -> bool) (i : nat) (l : list A) : list nat :=
  match l with
  | [] => []
  | x :: l' => if p x then i :: positions p (S i) l' else positions p (S i) l'
  end.

(** [for x in l: f(x)] *)
Fixpoint for_each {A} (l : list A) (f : A -> M unit) : M unit :=
  match l with
  | [] => ret tt
  | x :: l' => let* _ := f x in for_each l' f
  end.

(** [customer.discounts.append(r)] *)
Definition append_discount (r : ref) (c : nat) : M unit :=
  let* cu := get_customer c in
  set_discounts c (c_discounts cu ++ [r]).

Definition select_discount (id : Z) : M ref :=
  let* s := get in
  ret (fst <$> list_find (fun d => d_id d = id) (md_discounts s)).

Definition select_customer (username : string) : M (option nat) :=
  let* s := get in
  ret (fst <$> list_find (fun cu => c_username cu = username) (md_customers s)).

Definition select_customers (location : string) : M (list nat) :=
  let* s := get in
  ret (positions (fun cu => String.eqb (c_location cu) location) 0 (md_customers s)).

Definition select_book (title : string) : M (option Book) :=
  let* s := get in
  ret (snd <$> list_find (fun b => b_title b = title) (md_books s)).

Definition one_year_old (today : date) (cu : Customer) : bool :=
  365 <=? PyDate.days_between today (c_signup_date cu).

Definition discount_one_year_customers (now : datetime) (discount_id : Z) : M unit :=
  let* selected_discount := select_discount discount_id in
  let* s := get in
  let selected_customers :=
    positions (one_year_old (date_of now)) 0 (md_customers s) in
  for_each selected_customers (append_discount selected_discount).

Definition is_black_friday (today : date) : bool :=
  PyDate.eqb today (mkdate (year today) 11 24).

Definition discount_black_friday (now : datetime) (discount_id : Z) : M unit :=
  let today := date_of now in
  if is_black_friday today then
    let* selected_discount := select_discount discount_id in
    let* s := get in
    for_each (positions (fun _ => true) 0 (md_customers s))
             (append_discount selected_discount)
  else ret tt.

Definition discount_location (discount_id : Z) (location : string) : M unit :=
  let* selected_discount := select_discount discount_id in
  let* selected_customers := select_customers (lower location) in
  for_each selected_customers (append_discount selected_discount).

Definition discount_specific_author (discount_id : Z) (author : string) : M unit :=
  let* selected_discount := select_discount discount_id in
  let* _ := set_author_specific selected_discount (Some author) in
  let* s := get in
  for_each (positions (fun _ => true) 0 (md_customers s))
           (append_discount selected_discount).

Definition run_all_discount_rules (now : datetime) : M unit :=
  let* _ := discount_black_friday now 2 in
  discount_one_year_customers now 1.

(** ** The order-taking steps of [main] (lines 292-299), for any username
    and any selection of titles *)

Fixpoint select_books_by_title (books_selected : list (string * Z))
  : M (list (option Book * Z)) :=
  match books_selected with
  | [] => ret []
  | (title, quantity) :: rest =>
      let* b := select_book title in
      let* r := select_books_by_title rest in
      ret ((b, quantity) :: r)
  end.

Definition select_and_place_order (username : string)
           (books_selected : list (string * Z)) : M unit :=
  let* joe_doe := select_customer username in
  let* books := select_books_by_title books_selected in
  let* c := attr joe_doe in
  place_order c books.
(** * Reasoning about the store monad *)

Lemma bind_Return {A B} (m : M A) (f : A -> M B) s a s' :
  m s = (Return a, s') -> bind m f s = f a s'.
Proof. intros H. unfold bind. rewrite H. reflexivity. Qed.

Lemma bind_Raise {A B} (m : M A) (f : A -> M B) s e s' :
  m s = (Raise e, s') -> bind m f s = (Raise e, s').
Proof. intros H. unfold bind. rewrite H. reflexivity. Qed.

Lemma get_customer_Some c cu s :
  md_customers s !! c = Some cu -> get_customer c s = (Return cu, s).
Proof. intros H. unfold get_customer, bind, get. rewrite H. reflexivity. Qed.

Lemma deref_Some i d s :
  md_discounts s !! i = Some d -> deref (Some i) s = (Return d, s).
Proof. intros H. unfold deref, bind, get. rewrite H. reflexivity. Qed.

Lemma set_discounts_Some c cu l s :
  md_customers s !! c = Some cu ->
  set_discounts c l s =
  (Return tt, with_md_customers s (<[c := with_discounts cu l]> (md_customers s))).
Proof.
  intros H. unfold set_discounts.
  rewrite (bind_Return _ _ _ _ _ (get_customer_Some c cu s H)). reflexivity.
Qed.

Lemma set_nb_usage_Some i d n s :
  md_discounts s !! i = Some d ->
  set_nb_usage (Some i) n s =
  (Return tt, with_md_discounts s (<[i := with_nb_usage d n]> (md_discounts s))).
Proof.
  intros H. unfold set_nb_usage.
  rewrite (bind_Return _ _ _ _ _ (deref_Some i d s H)). reflexivity.
Qed.

Definition assign (p : Customer -> bool) (r : ref) (cu : Customer) : Customer :=
  if p cu then with_discounts cu (c_discounts cu ++ [r]) else cu.

Lemma append_discount_at r done cu todo s :
  md_customers s = done ++ cu :: todo ->
  append_discount r (length done) s =
  (Return tt,
   with_md_customers s (done ++ with_discounts cu (c_discounts cu ++ [r]) :: todo)).
Proof.
  intros Hs.
  assert (Hcu : md_customers s !! length done = Some cu)
    by (rewrite Hs; apply list_lookup_middle; reflexivity).
  unfold append_discount.
  rewrite (bind_Return _ _ _ _ _ (get_customer_Some _ _ _ Hcu)).
  rewrite (set_discounts_Some _ _ _ _ Hcu), Hs.
  rewrite insert_app_r_alt by lia. rewrite Nat.sub_diag. reflexivity.
Qed.

Lemma for_each_positions p r todo : forall done s,
  md_customers s = done ++ todo ->
  for_each (positions p (length done) todo) (append_discount r) s =
  (Return tt, with_md_customers s (done ++ map (assign p r) todo)).
Proof.
  induction todo as [|cu todo IH]; intros done s Hs; simpl.
  - unfold ret. rewrite <- Hs. destruct s; reflexivity.
  - unfold assign at 1. destruct (p cu); simpl.
    + rewrite (bind_Return _ _ _ _ _ (append_discount_at r done cu todo s Hs)).
      specialize (IH (done ++ [with_discounts cu (c_discounts cu ++ [r])])).
      rewrite length_app, Nat.add_1_r in IH. rewrite IH.
      * simpl. rewrite <- app_assoc. reflexivity.
      * simpl. rewrite <- app_assoc. reflexivity.
    + specialize (IH (done ++ [cu])).
      rewrite length_app, Nat.add_1_r in IH. rewrite IH.
      * rewrite <- app_assoc. reflexivity.
      * rewrite Hs, <- app_assoc. reflexivity.
Qed.

(** Appending [r] to the customers that satisfy [p], as one map over the
    customer list. *)
Lemma assign_all p r s :
  for_each (positions p 0 (md_customers s)) (append_discount r) s =
  (Return tt, with_md_customers s (map (assign p r) (md_customers s))).
Proof. apply (for_each_positions p r (md_customers s) [] s). reflexivity. Qed.

(** ** Computations that only read the store *)

Definition reads {A} (m : M A) : Prop := forall s, (m s).2 = s.

Lemma reads_ret {A} (a : A) : reads (ret a).
Proof. intros s. reflexivity. Qed.

Lemma reads_raise {A} e : reads (@raise A e).
Proof. intros s. reflexivity. Qed.

Lemma reads_get : reads get.
Proof. intros s. reflexivity. Qed.

Lemma reads_bind {A B} (m : M A) (f : A -> M B) :
  reads m -> (forall a, reads (f a)) -> reads (bind m f).
Proof.
  intros Hm Hf s. unfold bind. specialize (Hm s).
  destruct (m s) as [[a|e] s']; simpl in *; subst; [apply Hf | reflexivity].
Qed.

Lemma reads_deref r : reads (deref r).
Proof.
  destruct r as [i|]; simpl; [|apply reads_raise].
  apply reads_bind; [apply reads_get|]. intros s.
  destruct (md_discounts s !! i); [apply reads_ret | apply reads_raise].
Qed.

Lemma reads_attr {A} (o : option A) : reads (attr o).
Proof. destruct o; [apply reads_ret | apply reads_raise]. Qed.

Lemma reads_get_customer c : reads (get_customer c).
Proof.
  apply reads_bind; [apply reads_get|]. intros s.
  destruct (md_customers s !! c); [apply reads_ret | apply reads_raise].
Qed.

Lemma reads_filterM {A} (p : A -> M bool) l :
  (forall x, reads (p x)) -> reads (filterM p l).
Proof.
  intros Hp. induction l as [|x l IH]; simpl; [apply reads_ret|].
  apply reads_bind; [apply Hp|]. intros b.
  apply reads_bind; [apply IH|]. intros r. apply reads_ret.
Qed.

Lemma reads_next_or_none p l :
  (forall x, reads (p x)) -> reads (next_or_none p l).
Proof.
  intros Hp. induction l as [|x l IH]; simpl; [apply reads_ret|].
  apply reads_bind; [apply Hp|]. intros [|]; [apply reads_ret | apply IH].
Qed.

Lemma reads_run {A} (m : M A) s : reads m -> m s = ((m s).1, s).
Proof. intros H. rewrite <- (H s) at 3. destruct (m s); reflexivity. Qed.

(** ** Triples: precondition, result on return, store on raise *)

Definition hoare {A} (P : MasterData -> Prop) (m : M A)
           (Q : A -> MasterData -> Prop) (E : MasterData -> Prop) : Prop :=
  forall s, P s ->
            match m s with
            | (Return a, s') => Q a s'
            | (Raise _, s') => E s'
            end.

Lemma hoare_ret {A} (P : MasterData -> Prop) (a : A) Q E :
  (forall s, P s -> Q a s) -> hoare P (ret a) Q E.
Proof. intros H s Hs. apply H, Hs. Qed.

Lemma hoare_raise {A} (P : MasterData -> Prop) e (Q : A -> MasterData -> Prop) E :
  (forall s, P s -> E s) -> hoare P (raise e) Q E.
Proof. intros H s Hs. apply H, Hs. Qed.

Lemma hoare_bind {A B} P (m : M A) R (f : A -> M B) Q E :
  hoare P m R E -> (forall a, hoare (R a) (f a) Q E) -> hoare P (bind m f) Q E.
Proof.
  intros Hm Hf s Hs. unfold bind. specialize (Hm s Hs).
  destruct (m s) as [[a|e] s']; [apply (Hf a s' Hm) | exact Hm].
Qed.

Lemma hoare_conseq {A} (P P' : MasterData -> Prop) (m : M A)
      (Q Q' : A -> MasterData -> Prop) (E E' : MasterData -> Prop) :
  hoare P m Q E ->
  (forall s, P' s -> P s) -> (forall a s, Q a s -> Q' a s) -> (forall s, E s -> E' s) ->
  hoare P' m Q' E'.
Proof.
  intros H HP HQ HE s Hs. specialize (H s (HP s Hs)).
  destruct (m s) as [[a|e] s']; auto.
Qed.

(** A reader keeps any assertion, and its result is what it returns in the
    store it ran in. *)
Lemma hoare_reads {A} (P : MasterData -> Prop) (m : M A) :
  reads m ->
  hoare P m (fun a s => P s /\ m s = (Return a, s)) P.
Proof.
  intros Hm s Hs. specialize (Hm s).
  destruct (m s) as [[a|e] s'] eqn:Heq; simpl in Hm; subst; auto.
Qed.

Lemma hoare_foldM {A B} (I : MasterData -> Prop) (f : A -> B -> M A) E l :
  (forall acc x, x ∈ l -> hoare I (f acc x) (fun _ => I) E) ->
  forall acc, hoare I (foldM f l acc) (fun _ => I) E.
Proof.
  induction l as [|x l IH]; intros Hf acc; simpl.
  - apply hoare_ret. auto.
  - eapply hoare_bind.
    + apply Hf. left.
    + intros a. apply IH. intros acc' y Hy. apply Hf. right. exact Hy.
Qed.

(** What [next(filter(p, l), None)] returns, for a reading [p]. *)
Lemma next_or_none_Return p l s r :
  (forall x, reads (p x)) ->
  next_or_none p l s = (Return r, s) -> r = None \/ r ∈ l.
Proof.
  intros Hp. revert r. induction l as [|x l IH]; simpl; intros r.
  - intros H. injection H as <-. left. reflexivity.
  - unfold bind. pose proof (Hp x s) as Hx.
    destruct (p x s) as [[[|]|e] s']; simpl in Hx; subst s'.
    + intros H. injection H as <-. right. left.
    + intros H. destruct (IH r H) as [->|Hr]; [left; reflexivity | right; right; exact Hr].
    + discriminate.
Qed.

(** ** Filters over references *)

(** The test [lambda r: q(r)] for a predicate [q] on discount fields. *)
Definition test_ref (q : Discount -> bool) (r : ref) : M bool :=
  let* d := deref r in ret (q d).

(** Its value in a given store; a reference that does not resolve fails it. *)
Definition ref_sat (q : Discount -> bool) (s : MasterData) (r : ref) : bool :=
  match r with
  | Some j => match md_discounts s !! j with
              | Some d => q d
              | None => false
              end
  | None => false
  end.

(** A reference resolves to [d] in [s] when it names the discount [d] of the
    store. *)
Definition resolves (s : MasterData) (r : ref) (d : Discount) : Prop :=
  exists i, r = Some i /\ md_discounts s !! i = Some d.

Definition resolvable (s : MasterData) (r : ref) : Prop := exists d, resolves s r d.

Lemma deref_cases r s :
  (exists d, resolves s r d /\ deref r s = (Return d, s)) \/
  ((forall d, ~ resolves s r d) /\ exists e, deref r s = (Raise e, s)).
Proof.
  destruct r as [i|].
  - destruct (md_discounts s !! i) as [d|] eqn:Hi.
    + left. exists d. split; [exists i; auto | apply deref_Some, Hi].
    + right. split.
      * intros d (j & Hj & Hd). congruence.
      * exists InvalidRef. unfold deref, bind, get. rewrite Hi. reflexivity.
  - right. split.
    + intros d (j & Hj & _). discriminate.
    + exists AttributeError. reflexivity.
Qed.

Lemma resolves_deref s r d : resolves s r d -> deref r s = (Return d, s).
Proof. intros (i & -> & Hi). apply deref_Some, Hi. Qed.

Lemma resolves_ref_sat q s r d : resolves s r d -> ref_sat q s r = q d.
Proof. intros (i & -> & Hi). simpl. rewrite Hi. reflexivity. Qed.

Lemma ref_sat_true q s r :
  ref_sat q s r = true -> exists d, resolves s r d /\ q d = true.
Proof.
  destruct r as [j|]; simpl; [|discriminate].
  destruct (md_discounts s !! j) as [d|] eqn:Hj; [|discriminate].
  intros Hq. exists d. split; [exists j; auto | exact Hq].
Qed.

Lemma reads_test_ref q r : reads (test_ref q r).
Proof. apply reads_bind; [apply reads_deref|]. intros d. apply reads_ret. Qed.

Lemma test_ref_resolves q s r d :
  resolves s r d -> test_ref q r s = (Return (q d), s).
Proof.
  intros H. unfold test_ref. rewrite (bind_Return _ _ _ _ _ (resolves_deref s r d H)).
  reflexivity.
Qed.

Lemma test_ref_unresolvable q s r :
  ~ resolvable s r -> exists e, test_ref q r s = (Raise e, s).
Proof.
  intros Hn. destruct (deref_cases r s) as [(d & Hr & _)|(_ & e & He)].
  - destruct Hn. exists d. exact Hr.
  - exists e. unfold test_ref. apply bind_Raise, He.
Qed.

Lemma resolvable_dec s r : {resolvable s r} + {~ resolvable s r}.
Proof.
  destruct r as [j|].
  - destruct (md_discounts s !! j) as [d|] eqn:Hj.
    + left. exists d, j. auto.
    + right. intros (d & i & Hi & Hd). congruence.
  - right. intros (d & i & Hi & _). discriminate.
Qed.

(** [list(filter(lambda r: q(r), l))]: the sub-list of the references that
    satisfy [q], or an exception at the first one that does not resolve. *)
Lemma filterM_test_ref q l s :
  (Forall (resolvable s) l /\
   filterM (test_ref q) l s = (Return (filter (fun r => ref_sat q s r = true) l), s))
  \/ (~ Forall (resolvable s) l /\ exists e, filterM (test_ref q) l s = (Raise e, s)).
Proof.
  induction l as [|r l IH]; simpl.
  - left. split; [constructor | reflexivity].
  - destruct (resolvable_dec s r) as [[d Hd]|Hn].
    + rewrite (bind_Return _ _ _ _ _ (test_ref_resolves q s r d Hd)).
      destruct IH as [[Hall Hrun]|[Hnot [e Hrun]]].
      * left. split; [constructor; [exists d; exact Hd | exact Hall]|].
        rewrite (bind_Return _ _ _ _ _ Hrun). unfold ret.
        rewrite filter_cons, (resolves_ref_sat q s r d Hd).
        destruct (q d); reflexivity.
      * right. split; [intros H; apply Hnot; inversion H; assumption|].
        exists e. apply bind_Raise, Hrun.
    + right. split; [intros H; apply Hn; inversion H; assumption|].
      destruct (test_ref_unresolvable q s r Hn) as [e He].
      exists e. apply bind_Raise, He.
Qed.

Lemma filterM_ext {A} (p p' : A -> M bool) l s :
  (forall x, reads (p x)) -> (forall x, p x s = p' x s) ->
  filterM p l s = filterM p' l s.
Proof.
  intros Hr Hpp. induction l as [|x l IH]; simpl; [reflexivity|].
  unfold bind at 1 3. rewrite <- Hpp. pose proof (Hr x s) as Hx.
  destruct (p x s) as [[b|e] s']; simpl in Hx; subst s'; [|reflexivity].
  unfold bind. rewrite IH. reflexivity.
Qed.

(** ** What [use_discount] does to the store *)

(** [d.nb_usage -= 1] for the discount [d] stored at [j]. *)
Definition decrement (s : MasterData) (j : nat) (d : Discount) : MasterData :=
  with_md_discounts s (<[j := with_nb_usage d (d_nb_usage d - 1)]> (md_discounts s)).

Definition other_id (d dx : Discount) : bool := negb (d_id dx =? d_id d).

(** Customer [c] keeps the references whose discount has another id than [d]. *)
Definition removed (s : MasterData) (c : nat) (cu : Customer) (d : Discount) : MasterData :=
  with_md_customers s
    (<[c := with_discounts cu
              (filter (fun x => ref_sat (other_id d) s x = true) (c_discounts cu))]>
       (md_customers s)).

Lemma decrement_lookup s j d :
  md_discounts s !! j = Some d ->
  md_discounts (decrement s j d) !! j = Some (with_nb_usage d (d_nb_usage d - 1)).
Proof.
  intros Hj. simpl. apply list_lookup_insert_eq. eapply lookup_lt_Some, Hj.
Qed.

Lemma decrement_lookup_ne s j d i :
  i <> j -> md_discounts (decrement s j d) !! i = md_discounts s !! i.
Proof. intros Hij. simpl. apply list_lookup_insert_ne. congruence. Qed.

Lemma decrement_ids s j d :
  md_discounts s !! j = Some d ->
  d_id <$> md_discounts (decrement s j d) = d_id <$> md_discounts s.
Proof.
  intros Hj. simpl. rewrite list_fmap_insert. simpl.
  apply list_insert_id. rewrite list_lookup_fmap, Hj. reflexivity.
Qed.

Lemma decrement_resolvable s j d r :
  md_discounts s !! j = Some d ->
  resolvable (decrement s j d) r <-> resolvable s r.
Proof.
  intros Hj. destruct r as [i|].
  - destruct (decide (i = j)) as [->|Hij].
    + split; intros _.
      * exists d, j. auto.
      * eexists. exists j. split; [reflexivity | apply decrement_lookup, Hj].
    + split; intros (dx & k & Hk & Hx); injection Hk as <-; exists dx, i;
        (split; [reflexivity|]).
      * rewrite <- Hx. symmetry. apply decrement_lookup_ne, Hij.
      * rewrite <- Hx. apply decrement_lookup_ne, Hij.
  - split; intros (dx & k & Hk & _); discriminate.
Qed.

Lemma use_discount_unresolvable self r s :
  ~ resolvable s r -> exists e, use_discount self r s = (Raise e, s).
Proof.
  intros Hn. destruct (deref_cases r s) as [(d & Hr & _)|(_ & e & He)].
  - destruct Hn. exists d. exact Hr.
  - exists e. unfold use_discount. apply bind_Raise, He.
Qed.

Lemma use_discount_unfold self j d s :
  md_discounts s !! j = Some d ->
  use_discount self (Some j) s =
  if d_nb_usage d - 1 =? 0 then remove_discount self (Some j) (decrement s j d)
  else (Return tt, decrement s j d).
Proof.
  intros Hj. unfold use_discount.
  rewrite (bind_Return _ _ _ _ _ (deref_Some j d s Hj)).
  rewrite (bind_Return _ _ _ _ _ (set_nb_usage_Some j d _ s Hj)).
  fold (decrement s j d).
  rewrite (bind_Return _ _ _ _ _ (deref_Some j _ _ (decrement_lookup s j d Hj))).
  simpl. destruct (d_nb_usage d - 1 =? 0); reflexivity.
Qed.

Lemma bind_congr {A B} (m m' : M A) (f : A -> M B) s :
  m s = m' s -> bind m f s = bind m' f s.
Proof. unfold bind. intros ->. reflexivity. Qed.

(** The removal of lines 122 and 130, run in a store where [r] resolves. *)
Lemma remove_discount_cases self r s d :
  resolves s r d ->
  (exists c cu, o_customer self = Some c /\ md_customers s !! c = Some cu /\
                Forall (resolvable s) (c_discounts cu) /\
                remove_discount self r s = (Return tt, removed s c cu d))
  \/ (exists e, remove_discount self r s = (Raise e, s)).
Proof.
  intros Hr. unfold remove_discount, customer_of.
  destruct (o_customer self) as [c|]; simpl; [|right; exists AttributeError; reflexivity].
  rewrite (bind_Return _ _ _ c s) by reflexivity.
  destruct (md_customers s !! c) as [cu|] eqn:Hc.
  - rewrite (bind_Return _ _ _ _ _ (get_customer_Some c cu s Hc)).
    rewrite (bind_congr _ (filterM (test_ref (other_id d)) (c_discounts cu)));
      [|apply filterM_ext].
    + destruct (filterM_test_ref (other_id d) (c_discounts cu) s)
        as [[Hall Hrun]|[_ [e Hrun]]].
      * left. exists c, cu. repeat split; auto.
        rewrite (bind_Return _ _ _ _ _ Hrun).
        apply set_discounts_Some, Hc.
      * right. exists e. apply bind_Raise, Hrun.
    + intros x. apply reads_bind; [apply reads_deref|]. intros dx.
      apply reads_bind; [apply reads_deref|]. intros dr. apply reads_ret.
    + intros x. unfold test_ref, bind at 1 3.
      destruct (deref x s) as [[dx|e] s'] eqn:Hx; [|reflexivity].
      pose proof (reads_deref x s) as Hs. rewrite Hx in Hs. simpl in Hs. subst s'.
      rewrite (bind_Return _ _ _ _ _ (resolves_deref s r d Hr)). reflexivity.
  - right. exists InvalidRef. apply bind_Raise.
    unfold get_customer, bind, get. rewrite Hc. reflexivity.
Qed.

(** Every store [use_discount] can leave behind. *)
Lemma use_discount_stores self r s :
  (use_discount self r s).2 = s \/
  exists j d, r = Some j /\ md_discounts s !! j = Some d /\
    ((use_discount self r s).2 = decrement s j d \/
     d_nb_usage d = 1 /\
     exists c cu, o_customer self = Some c /\
       md_customers s !! c = Some cu /\
       Forall (resolvable s) (c_discounts cu) /\
       use_discount self r s =
       (Return tt, removed (decrement s j d) c cu d)).
Proof.
  destruct (resolvable_dec s r) as [[d (j & -> & Hj)]|Hn].
  - right. exists j, d. split; [reflexivity|]. split; [exact Hj|].
    rewrite (use_discount_unfold self j d s Hj).
    destruct (d_nb_usage d - 1 =? 0) eqn:Hz; [|left; reflexivity].
    apply Z.eqb_eq in Hz.
    destruct (remove_discount_cases self (Some j) (decrement s j d)
                (with_nb_usage d (d_nb_usage d - 1)))
      as [(c & cu & Hc & Hcu & Hall & Hrun)|[e Hrun]].
    + exists j. split; [reflexivity | apply decrement_lookup, Hj].
    + right. split; [lia|]. exists c, cu. repeat split; auto.
      eapply Forall_impl; [exact Hall|]. intros x. apply decrement_resolvable, Hj.
    + left. rewrite Hrun. reflexivity.
  - left. destruct (use_discount_unresolvable self r s Hn) as [e ->]. reflexivity.
Qed.

(** ** Invariants of the pricing loops *)

(** Run the reader at the head of a [bind] and split on its outcome. *)
Ltac reader_step Hreads :=
  match goal with
  | |- context [bind ?m ?f ?s] =>
      let Hrun := fresh "Hrun" in
      pose proof (reads_run m s Hreads) as Hrun;
      destruct ((m s).1) eqn:?;
      [rewrite (bind_Return _ _ _ _ _ Hrun) | rewrite (bind_Raise _ _ _ _ _ Hrun)]
  end.

Lemma use_discount_preserves (I : MasterData -> Prop) self r :
  (forall s j d, r = Some j -> md_discounts s !! j = Some d ->
                 I s -> I (decrement s j d)) ->
  (forall s c cu j d, r = Some j -> md_discounts s !! j = Some d ->
                      o_customer self = Some c -> md_customers s !! c = Some cu ->
                      I s -> I (removed s c cu d)) ->
  hoare I (use_discount self r) (fun _ => I) I.
Proof.
  intros Hdec Hrem s Hs.
  assert (Hgoal : I (use_discount self r s).2).
  { destruct (use_discount_stores self r s)
      as [->|(j & d & -> & Hj & [->|(Hone & c & cu & Hc & Hcu & _ & ->)])].
    - exact Hs.
    - apply (Hdec s j d); auto.
    - simpl. apply (Hrem (decrement s j d) c cu j (with_nb_usage d (d_nb_usage d - 1)));
        auto using decrement_lookup. }
  destruct (use_discount self r s) as [[a|e] s']; exact Hgoal.
Qed.

Lemma price_line_preserves (I : MasterData -> Prop) self asd total line :
  (forall r, r ∈ asd -> hoare I (use_discount self r) (fun _ => I) I) ->
  hoare I (price_line self asd total line) (fun _ => I) I.
Proof.
  intros Huse s Hs. unfold price_line.
  set (p := fun discount : ref => bind (deref discount) _).
  assert (Hp : forall x, reads (p x)).
  { intros x. apply reads_bind; [apply reads_deref|]. intros d.
    apply reads_bind; [apply reads_attr|]. intros b. apply reads_ret. }
  reader_step (reads_next_or_none p asd Hp); [|exact Hs].
  rename a into psd.
  apply next_or_none_Return in Hrun; [|exact Hp].
  assert (Hd : reads (match psd with
                      | Some _ => bind (deref psd) (fun d => ret (1 - d_amount d)%Q)
                      | None => ret 1%Q
                      end)).
  { destruct psd; [|apply reads_ret].
    apply reads_bind; [apply reads_deref|]. intros d. apply reads_ret. }
  reader_step Hd; [|exact Hs].
  reader_step (reads_attr (fst line)); [|exact Hs].
  destruct Hrun as [->|Hin].
  - simpl. exact Hs.
  - specialize (Huse psd Hin s Hs). unfold bind at 1.
    destruct psd as [j|]; [|exact Hs].
    destruct (use_discount self (Some j) s) as [[u|e] s']; exact Huse.
Qed.

Lemma price_lines_preserves (I : MasterData -> Prop) self asd :
  (forall r, r ∈ asd -> hoare I (use_discount self r) (fun _ => I) I) ->
  hoare I (price_lines self asd) (fun _ => I) I.
Proof.
  intros Huse. apply hoare_foldM. intros acc x _.
  apply price_line_preserves, Huse.
Qed.

Lemma apply_discount_preserves (I : MasterData -> Prop) self total r :
  hoare I (use_discount self r) (fun _ => I) I ->
  hoare I (apply_discount self total r) (fun _ => I) I.
Proof.
  intros Huse s Hs. unfold apply_discount.
  reader_step (reads_deref r); [|exact Hs].
  specialize (Huse s Hs). unfold bind.
  destruct (use_discount self r s) as [[u|e] s']; exact Huse.
Qed.

Lemma apply_discounts_preserves (I : MasterData -> Prop) self vd total :
  (forall r, r ∈ vd -> hoare I (use_discount self r) (fun _ => I) I) ->
  hoare I (apply_discounts self vd total) (fun _ => I) I.
Proof.
  intros Huse. apply hoare_foldM. intros acc x Hx.
  apply apply_discount_preserves, Huse, Hx.
Qed.

(** The two lists of lines 109 and 110 are filters of the customer's
    references. *)
Definition held_refs (q : Discount -> bool) (self : Order) : M (list ref) :=
  let* c := customer_of self in
  let* cu := get_customer c in
  filterM (test_ref q) (c_discounts cu).

Definition author_scoped (now : datetime) (d : Discount) : bool :=
  valid now d && truthy (d_author_specific d).

Definition general (now : datetime) (d : Discount) : bool :=
  valid now d && negb (truthy (d_author_specific d)).

Lemma author_specific_discounts_held now self :
  author_specific_discounts now self = held_refs (author_scoped now) self.
Proof. reflexivity. Qed.

Lemma valid_discounts_held now self :
  valid_discounts now self = held_refs (general now) self.
Proof. reflexivity. Qed.

Lemma held_refs_cases q self s :
  (exists c cu, o_customer self = Some c /\ md_customers s !! c = Some cu /\
                Forall (resolvable s) (c_discounts cu) /\
                held_refs q self s =
                (Return (filter (fun r => ref_sat q s r = true) (c_discounts cu)), s))
  \/ (exists e, held_refs q self s = (Raise e, s)).
Proof.
  unfold held_refs, customer_of.
  destruct (o_customer self) as [c|]; simpl; [|right; exists AttributeError; reflexivity].
  rewrite (bind_Return _ _ _ c s) by reflexivity.
  destruct (md_customers s !! c) as [cu|] eqn:Hc.
  - rewrite (bind_Return _ _ _ _ _ (get_customer_Some c cu s Hc)).
    destruct (filterM_test_ref q (c_discounts cu) s) as [[Hall Hrun]|[_ [e Hrun]]].
    + left. exists c, cu. auto.
    + right. exists e. exact Hrun.
  - right. exists InvalidRef. apply bind_Raise.
    unfold get_customer, bind, get. rewrite Hc. reflexivity.
Qed.

(** An assertion kept by every use of a discount that is valid at [now] in
    the initial store is kept by the whole computation of the running total,
    whether it returns or raises. *)
Lemma total_before_shipping_preserves (I : MasterData -> Prop) now self s :
  (forall r, ref_sat (valid now) s r = true ->
             hoare I (use_discount self r) (fun _ => I) I) ->
  I s -> I (total_before_shipping now self s).2.
Proof.
  intros Huse Hs. unfold total_before_shipping.
  rewrite author_specific_discounts_held, valid_discounts_held.
  destruct (held_refs_cases (author_scoped now) self s)
    as [(c & cu & Hc & Hcu & Hall & Hasd)|[e Hasd]];
    [rewrite (bind_Return _ _ _ _ _ Hasd) | rewrite (bind_Raise _ _ _ _ _ Hasd); exact Hs].
  destruct (held_refs_cases (general now) self s)
    as [(c' & cu' & Hc' & Hcu' & _ & Hvd)|[e Hvd]];
    [rewrite (bind_Return _ _ _ _ _ Hvd) | rewrite (bind_Raise _ _ _ _ _ Hvd); exact Hs].
  assert (c' = c) by congruence. subst c'.
  assert (cu' = cu) by congruence. subst cu'.
  set (asd := filter _ (c_discounts cu)).
  set (vd := filter _ (c_discounts cu)).
  assert (Hlines : hoare I (price_lines self asd) (fun _ => I) I).
  { apply price_lines_preserves. intros r Hr. apply Huse.
    apply list_elem_of_filter in Hr as [Hr _].
    apply ref_sat_true in Hr as (d & Hd & Hq).
    rewrite (resolves_ref_sat _ s r d Hd).
    apply andb_prop in Hq. tauto. }
  specialize (Hlines s Hs). unfold bind.
  destruct (price_lines self asd s) as [[total|e] s1]; [|exact Hlines].
  assert (Horder : hoare I (apply_discounts self vd total) (fun _ => I) I).
  { apply apply_discounts_preserves. intros r Hr. apply Huse.
    apply list_elem_of_filter in Hr as [Hr _].
    apply ref_sat_true in Hr as (d & Hd & Hq).
    rewrite (resolves_ref_sat _ s r d Hd).
    apply andb_prop in Hq. tauto. }
  specialize (Horder s1 Hlines).
  destruct (apply_discounts self vd total s1) as [[t|e] s2]; exact Horder.
Qed.

Lemma removed_lookup s c cu d :
  md_customers s !! c = Some cu ->
  md_customers (removed s c cu d) !! c =
  Some (with_discounts cu
          (filter (fun x => ref_sat (other_id d) s x = true) (c_discounts cu))).
Proof. intros Hc. simpl. apply list_lookup_insert_eq. eapply lookup_lt_Some, Hc. Qed.

Lemma removed_lookup_ne s c cu d c' :
  c' <> c -> md_customers (removed s c cu d) !! c' = md_customers s !! c'.
Proof. intros Hne. simpl. apply list_lookup_insert_ne. congruence. Qed.

(** The customer record stays in place and keeps its location. *)
Definition located (c : nat) (loc : string) (s : MasterData) : Prop :=
  exists cu, md_customers s !! c = Some cu /\ c_location cu = loc.

Lemma use_discount_located c loc self r :
  hoare (located c loc) (use_discount self r) (fun _ => located c loc) (located c loc).
Proof.
  apply use_discount_preserves.
  - intros s j d _ _ H. exact H.
  - intros s c' cu' j d _ _ _ Hcu' (cu & Hcu & Hloc).
    destruct (decide (c = c')) as [->|Hne].
    + assert (cu' = cu) by congruence. subst cu'.
      eexists. split; [apply removed_lookup, Hcu | exact Hloc].
    + exists cu. split; [|exact Hloc].
      rewrite removed_lookup_ne by exact Hne. exact Hcu.
Qed.

Lemma total_before_shipping_customer now self s total s' :
  total_before_shipping now self s = (Return total, s') ->
  exists c cu, o_customer self = Some c /\ md_customers s !! c = Some cu /\
               located c (c_location cu) s'.
Proof.
  intros Hrun.
  assert (Hc : exists c cu, o_customer self = Some c /\ md_customers s !! c = Some cu).
  { revert Hrun. unfold total_before_shipping.
    rewrite author_specific_discounts_held.
    destruct (held_refs_cases (author_scoped now) self s)
      as [(c & cu & Hc & Hcu & _)|[e Hasd]].
    - intros _. exists c, cu. auto.
    - rewrite (bind_Raise _ _ _ _ _ Hasd). discriminate. }
  destruct Hc as (c & cu & Hc & Hcu). exists c, cu. split; [exact Hc|]. split; [exact Hcu|].
  pose proof (total_before_shipping_preserves (located c (c_location cu)) now self s) as H.
  rewrite Hrun in H. apply H.
  - intros r _. apply use_discount_located.
  - exists cu. auto.
Qed.

Lemma add_shipping_run dist self c cu total s :
  o_customer self = Some c -> md_customers s !! c = Some cu ->
  add_shipping dist self total s =
  (Return (round2 (total + (if Qltb 50 total then 0
                            else shipping_cost dist "paris" (c_location cu)))%Q), s).
Proof.
  intros Hc Hcu. unfold add_shipping, customer_of. rewrite Hc. simpl.
  rewrite (bind_Return _ _ _ c s) by reflexivity.
  rewrite (bind_Return _ _ _ _ _ (get_customer_Some c cu s Hcu)). reflexivity.
Qed.

Lemma Qltb_lt x y : Qltb x y = true <-> (x < y)%Q.
Proof.
  unfold Qltb. rewrite Qlt_alt. destruct (x ?= y)%Q; split; congruence.
Qed.

Lemma Qltb_eq x y : (y == x)%Q -> Qltb x y = false.
Proof.
  intros H. unfold Qltb. symmetry in H. apply Qeq_alt in H. rewrite H. reflexivity.
Qed.

(** C7. The shipping waiver is strict: when the running total before
    shipping is exactly 50 the provider's shipping cost is added to it, and
    when it is greater than 50 the shipping cost is 0 whatever the provider
    returns. *)
Theorem shipping_waiver_is_strict dist now self s total s' :
  total_before_shipping now self s = (Return total, s') ->
  exists c cu,
    o_customer self = Some c /\ md_customers s !! c = Some cu /\
    ((total == 50)%Q ->
     calculate_total_price dist now self s =
     (Return (round2 (total + shipping_cost dist "paris" (c_location cu))), s')) /\
    ((50 < total)%Q ->
     calculate_total_price dist now self s = (Return (round2 (total + 0)), s')).
Proof.
  intros Hrun.
  destruct (total_before_shipping_customer now self s total s' Hrun)
    as (c & cu & Hc & Hcu & cu' & Hcu' & Hloc).
  exists c, cu. split; [exact Hc|]. split; [exact Hcu|].
  unfold calculate_total_price. rewrite (bind_Return _ _ _ _ _ Hrun).
  rewrite (add_shipping_run dist self c cu' total s' Hc Hcu'), Hloc.
  split; intros Ht.
  - rewrite (Qltb_eq 50 total Ht). reflexivity.
  - apply Qltb_lt in Ht. rewrite Ht. reflexivity.
Qed.

(** ** A small store, after the reference data *)

Module Sample.

Definition opens : datetime := mkdatetime (mkdate 2023 1 1) 0.
Definition closes : datetime := mkdatetime (mkdate 2030 12 31) 86399000000.
Definition now : datetime := mkdatetime (mkdate 2024 6 1) 43200000000.
Definition black_friday : datetime := mkdatetime (mkdate 2023 11 24) 43200000000.

Definition tenure : Discount := mkDiscount 1 opens closes (1 # 10) 1 (Some "") None.
Definition seasonal : Discount := mkDiscount 2 opens closes (2 # 10) 1 (Some "") None.
Definition adams : Discount := mkDiscount 3 opens closes (4 # 10) 1 (Some "") None.
Definition adams_fan : Discount := mkDiscount 4 opens closes (5 # 10) 5 (Some "") None.
Definition expired : Discount :=
  mkDiscount 5 opens (mkdatetime (mkdate 2023 12 31) 86399000000) (3 # 10) 1 (Some "") None.

Definition guide : Book :=
  mkBook "The Hitchhiker's Guide to the Galaxy" "Douglas Adams" (1299 # 100).
Definition restaurant : Book :=
  mkBook "The Restaurant at the End of the Universe" "Douglas Adams" (1250 # 100).
Definition dune : Book := mkBook "Dune" "Frank Herbert" (1495 # 100).

Definition john : Customer := mkCustomer "john_doe" "berlin" (mkdate 2020 1 15) [] None.
Definition jane : Customer := mkCustomer "jane_roe" "berlin" (mkdate 2021 3 2) [] None.
Definition pierre : Customer := mkCustomer "pierre" "PARIS" (mkdate 2024 5 20) [] None.

Definition store : MasterData :=
  mkMasterData [guide; restaurant; dune]
               [tenure; seasonal; adams; adams_fan; expired]
               [john; jane; pierre].

(** 878 km between any two places, so shipping costs 17.56. *)
Definition distance (a b : string) : option Q := Some 878%Q.

(** The store a computation leaves behind. *)
Definition after {A} (m : M A) (s : MasterData) : MasterData := (m s).2.

(** The order a customer holds, or an empty one. *)
Definition order_of (c : nat) (s : MasterData) : Order :=
  match md_customers s !! c with
  | Some cu => default (mkOrder [] None) (c_order cu)
  | None => mkOrder [] None
  end.

Definition discounts_of (c : nat) (s : MasterData) : list ref :=
  match md_customers s !! c with
  | Some cu => c_discounts cu
  | None => []
  end.

Definition usage_of (i : nat) (s : MasterData) : option Z :=
  d_nb_usage <$> md_discounts s !! i.

Definition registered_in (username : string) (s : MasterData) : Prop :=
  username ∈ map c_username (md_customers s).

End Sample.


(** ** Claims settled by running the code *)

(** C1. An author-scoped discount with [nb_usage = 1] is applied to both
    lines of an order of two books by its author: the counter ends at -1
    instead of the discount being unavailable for the second line. *)
Theorem exhausted_author_discount_reused :
  let s1 := Sample.after (discount_specific_author 3 "Douglas Adams") Sample.store in
  let s2 := Sample.after
              (select_and_place_order "john_doe"
                 [("The Hitchhiker's Guide to the Galaxy"%string, 1);
                  ("The Restaurant at the End of the Universe"%string, 1)]) s1 in
  let r := total_before_shipping Sample.now (Sample.order_of 0 s2) s2 in
  Sample.discounts_of 0 s2 = [Some 2%nat] /\ Sample.usage_of 2 s2 = Some 1 /\
  (exists t, r.1 = Return t /\
             (t == (1299 # 100) * (1 - (4 # 10)) + (1250 # 100) * (1 - (4 # 10)))%Q /\
             ~ (t == (1299 # 100) * (1 - (4 # 10)) + (1250 # 100))%Q) /\
  Sample.usage_of 2 r.2 = Some (-1) /\ Sample.discounts_of 0 r.2 = [].
Proof.
  vm_compute. repeat split; try reflexivity.
  eexists. repeat split; try reflexivity. intros H. discriminate H.
Qed.

(** C2. Two customers hold the same tenure discount with [nb_usage = 1].
    After the first customer's order is priced the counter is 0 and the
    second customer still holds the discount; pricing the second customer's
    order applies it again and leaves the counter at -1, still held. *)
Theorem exhausted_shared_discount_goes_negative :
  let s1 := Sample.after (discount_one_year_customers Sample.now 1) Sample.store in
  let s2 := Sample.after
              (select_and_place_order "john_doe" [("Dune"%string, 1)]) s1 in
  let s3 := Sample.after
              (select_and_place_order "jane_roe" [("Dune"%string, 1)]) s2 in
  let r1 := total_before_shipping Sample.now (Sample.order_of 0 s3) s3 in
  let r2 := total_before_shipping Sample.now (Sample.order_of 1 r1.2) r1.2 in
  Sample.discounts_of 0 s3 = [Some 0%nat] /\ Sample.discounts_of 1 s3 = [Some 0%nat] /\
  Sample.usage_of 0 s3 = Some 1 /\
  Sample.usage_of 0 r1.2 = Some 0 /\ Sample.discounts_of 1 r1.2 = [Some 0%nat] /\
  (exists t, r2.1 = Return t /\ (t == (1495 # 100) * (1 - (1 # 10)))%Q) /\
  Sample.usage_of 0 r2.2 = Some (-1) /\ Sample.discounts_of 1 r2.2 = [Some 0%nat].
Proof.
  vm_compute. repeat split; try reflexivity.
  eexists. repeat split; reflexivity.
Qed.

(** C4. The location rule lower-cases the target only: a customer whose
    location is ["PARIS"] is not assigned the discount when the target is
    ["PARIS"], although the two locations are equal. *)
Theorem location_rule_misses_upper_case_customer :
  c_location Sample.pierre = "PARIS"%string /\
  lower (c_location Sample.pierre) = lower "PARIS" /\
  Sample.registered_in "pierre" Sample.store /\
  discount_location 2 "PARIS" Sample.store = (Return tt, Sample.store).
Proof. vm_compute. repeat split. right. right. left. Qed.

(** ** The assignment rules as maps over the customers *)

(** The reference [select_discount] returns in store [s]. *)
Definition registered (s : MasterData) (id : Z) : ref :=
  fst <$> list_find (fun d => d_id d = id) (md_discounts s).

Lemma select_discount_run id s : select_discount id s = (Return (registered s id), s).
Proof. reflexivity. Qed.

Lemma registered_unknown s id :
  Forall (fun d => d_id d <> id) (md_discounts s) -> registered s id = None.
Proof.
  intros H. unfold registered.
  apply (list_find_None (fun d => d_id d = id)) in H. rewrite H. reflexivity.
Qed.

Lemma discount_one_year_customers_run now id s :
  discount_one_year_customers now id s =
  (Return tt,
   with_md_customers s
     (map (assign (one_year_old (date_of now)) (registered s id)) (md_customers s))).
Proof.
  unfold discount_one_year_customers.
  rewrite (bind_Return _ _ _ _ _ (select_discount_run id s)).
  rewrite (bind_Return _ _ _ s s) by reflexivity.
  apply assign_all.
Qed.

Lemma discount_black_friday_run now id s :
  discount_black_friday now id s =
  (Return tt,
   if is_black_friday (date_of now)
   then with_md_customers s
          (map (assign (fun _ => true) (registered s id)) (md_customers s))
   else s).
Proof.
  unfold discount_black_friday. destruct (is_black_friday (date_of now)); [|reflexivity].
  rewrite (bind_Return _ _ _ _ _ (select_discount_run id s)).
  rewrite (bind_Return _ _ _ s s) by reflexivity.
  apply assign_all.
Qed.

Lemma discount_location_run id location s :
  discount_location id location s =
  (Return tt,
   with_md_customers s
     (map (assign (fun cu => String.eqb (c_location cu) (lower location))
                  (registered s id))
          (md_customers s))).
Proof.
  unfold discount_location.
  rewrite (bind_Return _ _ _ _ _ (select_discount_run id s)).
  unfold select_customers.
  rewrite (bind_Return _ _ _
             (positions (fun cu => String.eqb (c_location cu) (lower location)) 0
                        (md_customers s)) s) by reflexivity.
  apply assign_all.
Qed.

Lemma assign_as_append p r cu :
  assign p r cu = with_discounts cu (c_discounts cu ++ if p cu then [r] else []).
Proof.
  unfold assign. destruct (p cu); [reflexivity|].
  destruct cu. unfold with_discounts. simpl. rewrite app_nil_r. reflexivity.
Qed.

(** The order of the rules as the specification words it: tenure first. *)
Definition run_all_tenure_first (now : datetime) : M unit :=
  let* _ := discount_one_year_customers now 1 in
  discount_black_friday now 2.

(** C3, as the code has it: the seasonal-date rule with discount id 2 runs
    first and the tenure rule with discount id 1 second, so every customer
    ends with the seasonal discount (on the trigger date) before the tenure
    discount (when the account is a year old). *)
Theorem run_all_seasonal_then_tenure now s :
  run_all_discount_rules now s =
  (Return tt,
   with_md_customers s
     (map (fun cu =>
             with_discounts cu
               (c_discounts cu
                  ++ (if is_black_friday (date_of now) then [registered s 2] else [])
                  ++ (if one_year_old (date_of now) cu then [registered s 1] else [])))
          (md_customers s))).
Proof.
  unfold run_all_discount_rules.
  rewrite (bind_Return _ _ _ _ _ (discount_black_friday_run now 2 s)).
  rewrite discount_one_year_customers_run.
  destruct (is_black_friday (date_of now)); simpl.
  - rewrite map_map. f_equal. f_equal. apply map_ext. intros cu.
    rewrite !assign_as_append. destruct cu; simpl.
    unfold with_discounts, one_year_old. simpl. rewrite <- app_assoc. reflexivity.
  - f_equal. destruct s; simpl. f_equal. apply map_ext. intros cu.
    apply assign_as_append.
Qed.

(** On Black Friday 2023 a customer of more than a year receives the
    seasonal discount (registry position 1) before the tenure discount
    (position 0); the order of the specification would give the reverse. *)
Lemma run_all_is_not_tenure_first :
  run_all_discount_rules Sample.black_friday Sample.store <>
  run_all_tenure_first Sample.black_friday Sample.store /\
  Sample.discounts_of 0
    (Sample.after (run_all_discount_rules Sample.black_friday) Sample.store)
  = [Some 1%nat; Some 0%nat] /\
  Sample.discounts_of 0
    (Sample.after (run_all_tenure_first Sample.black_friday) Sample.store)
  = [Some 0%nat; Some 1%nat].
Proof. vm_compute. repeat split. intros H. discriminate H. Qed.

(** C5, as the code has it: for an id that no discount of the registry
    carries, [select_discount] returns [None] and no rule raises a lookup
    error; the tenure, seasonal-date and location rules return normally, and
    the author-scope rule raises an attribute error, leaving the store as it
    was. *)
Theorem unknown_discount_id_raises_no_lookup_error s id now location author :
  Forall (fun d => d_id d <> id) (md_discounts s) ->
  select_discount id s = (Return None, s) /\
  (discount_one_year_customers now id s).1 = Return tt /\
  (discount_black_friday now id s).1 = Return tt /\
  (discount_location id location s).1 = Return tt /\
  discount_specific_author id author s = (Raise AttributeError, s).
Proof.
  intros Hid. apply registered_unknown in Hid.
  rewrite discount_one_year_customers_run, discount_black_friday_run,
    discount_location_run, select_discount_run, Hid.
  repeat split. unfold discount_specific_author.
  rewrite (bind_Return _ _ _ _ _ (select_discount_run id s)), Hid. reflexivity.
Qed.

Lemma unknown_discount_id_raises_no_lookup_error_witness :
  select_discount 99 Sample.store = (Return None, Sample.store) /\
  (discount_one_year_customers Sample.now 99 Sample.store).1 = Return tt /\
  (discount_black_friday Sample.now 99 Sample.store).1 = Return tt /\
  (discount_location 99 "berlin" Sample.store).1 = Return tt /\
  discount_specific_author 99 "Douglas Adams" Sample.store
  = (Raise AttributeError, Sample.store).
Proof.
  apply (unknown_discount_id_raises_no_lookup_error
           Sample.store 99 Sample.now "berlin" "Douglas Adams").
  vm_compute. repeat constructor; discriminate.
Defined.

(** No discount carries id 99: the tenure rule returns normally and a
    customer who held nothing now holds [None]. *)
Lemma unknown_discount_id_assigns_none :
  Forall (fun d => d_id d <> 99) (md_discounts Sample.store) /\
  (discount_one_year_customers Sample.now 99 Sample.store).1 = Return tt /\
  Sample.discounts_of 0 Sample.store = [] /\
  Sample.discounts_of 0
    (Sample.after (discount_one_year_customers Sample.now 99) Sample.store) = [None].
Proof. vm_compute. repeat split. repeat constructor; discriminate. Qed.

(** ** Order placement *)

(** The values [select_book] and [select_customer] return in store [s]. *)
Definition found_book (s : MasterData) (title : string) : option Book :=
  snd <$> list_find (fun b => b_title b = title) (md_books s).

Definition found_customer (s : MasterData) (username : string) : option nat :=
  fst <$> list_find (fun cu => c_username cu = username) (md_customers s).

Lemma select_book_run title s : select_book title s = (Return (found_book s title), s).
Proof. reflexivity. Qed.

Lemma select_customer_run username s :
  select_customer username s = (Return (found_customer s username), s).
Proof. reflexivity. Qed.

Lemma found_book_unknown s title :
  Forall (fun b => b_title b <> title) (md_books s) -> found_book s title = None.
Proof.
  intros H. unfold found_book.
  apply (list_find_None (fun b => b_title b = title)) in H. rewrite H. reflexivity.
Qed.

Lemma found_customer_unknown s username :
  Forall (fun cu => c_username cu <> username) (md_customers s) ->
  found_customer s username = None.
Proof.
  intros H. unfold found_customer.
  apply (list_find_None (fun cu => c_username cu = username)) in H.
  rewrite H. reflexivity.
Qed.

Lemma found_customer_Some s username c :
  found_customer s username = Some c ->
  exists cu, md_customers s !! c = Some cu /\ c_username cu = username.
Proof.
  unfold found_customer. intros H.
  destruct (list_find _ (md_customers s)) as [[c' cu]|] eqn:Hf; [|discriminate].
  injection H as ->. apply list_find_Some in Hf as (Hc & Hu & _).
  exists cu. auto.
Qed.

Lemma select_books_by_title_run books_selected s :
  select_books_by_title books_selected s =
  (Return (map (fun line => (found_book s line.1, line.2)) books_selected), s).
Proof.
  induction books_selected as [|[title quantity] rest IH]; simpl; [reflexivity|].
  rewrite (bind_Return _ _ _ _ _ (select_book_run title s)).
  rewrite (bind_Return _ _ _ _ _ IH). reflexivity.
Qed.

Lemma fold_add_book lines : forall o,
  fold_left (fun o line => add_book o line.1 line.2) lines o =
  mkOrder (o_books o ++ lines) (o_customer o).
Proof.
  induction lines as [|[b q] lines IH]; intros o; simpl.
  - rewrite app_nil_r. destruct o; reflexivity.
  - rewrite IH. simpl. rewrite <- app_assoc. reflexivity.
Qed.

Lemma place_order_run c cu books_selected s :
  md_customers s !! c = Some cu ->
  place_order c books_selected s =
  (Return tt,
   with_md_customers s
     (<[c := with_order cu (Some (mkOrder books_selected (Some c)))]> (md_customers s))).
Proof.
  intros Hc. unfold place_order, set_order.
  rewrite (bind_Return _ _ _ _ _ (get_customer_Some c cu s Hc)).
  rewrite fold_add_book. reflexivity.
Qed.

(** C6, as the code has it, for every username and every selection of titles
    and quantities.  [select_book] returns what the catalog holds under a
    title, which is [None], without raising, for a title that no book
    carries.  When [select_customer] finds the username, the order is placed
    whatever the titles are: it becomes the customer's current order, with one
    line per selected title, in order, and the line of every title that no
    book carries has [None] for its book.  When no customer carries the
    username, [select_customer] returns [None] and placing the order raises an
    attribute error that leaves the store as it was, whatever the titles
    are. *)
Theorem missing_records_raise_no_lookup_error s username books_selected :
  (forall title,
     select_book title s = (Return (found_book s title), s) /\
     (Forall (fun b => b_title b <> title) (md_books s) ->
      select_book title s = (Return None, s))) /\
  (forall c, select_customer username s = (Return (Some c), s) ->
     exists cu lines,
       md_customers s !! c = Some cu /\ c_username cu = username /\
       select_and_place_order username books_selected s =
       (Return tt,
        with_md_customers s
          (<[c := with_order cu (Some (mkOrder lines (Some c)))]> (md_customers s))) /\
       lines = map (fun line => (found_book s line.1, line.2)) books_selected /\
       (forall k title quantity,
          books_selected !! k = Some (title, quantity) ->
          Forall (fun b => b_title b <> title) (md_books s) ->
          lines !! k = Some (None, quantity))) /\
  (Forall (fun cu => c_username cu <> username) (md_customers s) ->
   select_customer username s = (Return None, s) /\
   select_and_place_order username books_selected s = (Raise AttributeError, s)).
Proof.
  assert (Hsel : forall u : string,
             select_and_place_order u books_selected s =
             bind (attr (found_customer s u))
                  (fun c => place_order c
                              (map (fun line => (found_book s line.1, line.2))
                                   books_selected))
                  s).
  { intros u. unfold select_and_place_order.
    rewrite (bind_Return _ _ _ _ _ (select_customer_run u s)).
    rewrite (bind_Return _ _ _ _ _ (select_books_by_title_run books_selected s)).
    reflexivity. }
  split; [|split].
  - intros title. split; [apply select_book_run|].
    intros Htitle. rewrite select_book_run, (found_book_unknown _ _ Htitle).
    reflexivity.
  - intros c Hc. rewrite select_customer_run in Hc.
    assert (Hc' : found_customer s username = Some c) by congruence.
    destruct (found_customer_Some s username c Hc') as (cu & Hcu & Hu).
    exists cu, (map (fun line => (found_book s line.1, line.2)) books_selected).
    split; [exact Hcu|]. split; [exact Hu|]. split; [|split; [reflexivity|]].
    + rewrite Hsel, Hc'. simpl.
      rewrite (bind_Return _ _ _ c s) by reflexivity.
      apply place_order_run, Hcu.
    + intros k title quantity Hk Htitle.
      change (map ?f ?l) with (f <$> l).
      rewrite list_lookup_fmap, Hk. simpl.
      rewrite (found_book_unknown _ _ Htitle). reflexivity.
  - intros Hu. apply found_customer_unknown in Hu.
    split; [rewrite select_customer_run, Hu; reflexivity|].
    rewrite Hsel, Hu. reflexivity.
Qed.

(** In the sample store: an unknown title alone, an unknown title in second
    position for a known customer, and an unknown customer asking for a title
    that exists. *)
Lemma missing_records_raise_no_lookup_error_witness :
  select_book "Neuromancer" Sample.store = (Return None, Sample.store) /\
  (exists o, c_order <$> md_customers
               (Sample.after (select_and_place_order "john_doe"
                                [("Dune"%string, 1); ("Neuromancer"%string, 2)])
                             Sample.store) !! 0%nat
             = Some (Some o) /\
             o_books o = [(Some Sample.dune, 1); (None, 2)]) /\
  select_and_place_order "nobody" [("Dune"%string, 1)] Sample.store
  = (Raise AttributeError, Sample.store).
Proof.
  destruct (missing_records_raise_no_lookup_error
              Sample.store "john_doe" [("Dune"%string, 1); ("Neuromancer"%string, 2)])
    as (Hbook & Hjohn & _).
  destruct (missing_records_raise_no_lookup_error
              Sample.store "nobody" [("Dune"%string, 1)])
    as (_ & _ & Hnobody).
  split; [|split].
  - apply (Hbook "Neuromancer"%string).
    vm_compute. repeat constructor; discriminate.
  - destruct (Hjohn 0%nat) as (cu & lines & Hcu & _ & Hrun & Hlines & _);
      [reflexivity|].
    injection Hcu as <-. unfold Sample.after. rewrite Hrun, Hlines.
    eexists. split; reflexivity.
  - apply Hnobody. vm_compute. repeat constructor; discriminate.
Defined.

(** No book is titled "Neuromancer": the order is placed all the same and
    becomes the customer's current order, with [None] for the book. *)
Lemma order_with_missing_book_is_created :
  Forall (fun b => b_title b <> "Neuromancer"%string) (md_books Sample.store) /\
  (select_and_place_order "john_doe" [("Neuromancer"%string, 2)] Sample.store).1
  = Return tt /\
  c_order <$> md_customers
    (Sample.after (select_and_place_order "john_doe" [("Neuromancer"%string, 2)])
                  Sample.store) !! 0%nat
  = Some (Some (mkOrder [(None, 2)] (Some 0%nat))).
Proof. vm_compute. repeat split. repeat constructor; discriminate. Qed.

(** ** Following one discount through a calculation *)

(** Customer [c] holds the reference [r]. *)
Definition holds_ref (c : nat) (r : ref) (s : MasterData) : Prop :=
  exists cu, md_customers s !! c = Some cu /\ r ∈ c_discounts cu.

(** The ids of the registry are pairwise distinct. *)
Definition unique_ids (s : MasterData) : Prop := NoDup (d_id <$> md_discounts s).

(** The discount stored at [i] is [d], and [c] holds it exactly when [h]. *)
Definition tracked (c i : nat) (d : Discount) (h : Prop) (s : MasterData) : Prop :=
  unique_ids s /\ md_discounts s !! i = Some d /\ (holds_ref c (Some i) s <-> h).

Lemma unique_ids_other s i j d dj :
  unique_ids s -> md_discounts s !! i = Some d -> md_discounts s !! j = Some dj ->
  i <> j -> other_id dj d = true.
Proof.
  intros Hu Hi Hj Hne. unfold other_id. apply negb_true_iff, Z.eqb_neq. intros Heq.
  apply Hne. apply (NoDup_lookup _ i j (d_id d) Hu).
  - rewrite list_lookup_fmap, Hi. reflexivity.
  - rewrite list_lookup_fmap, Hj, Heq. reflexivity.
Qed.

Lemma holds_ref_removed s c cu dj r :
  md_customers s !! c = Some cu ->
  holds_ref c r (removed s c cu dj) <->
  holds_ref c r s /\ ref_sat (other_id dj) s r = true.
Proof.
  intros Hcu. unfold holds_ref. rewrite (removed_lookup s c cu dj Hcu). split.
  - intros (cu' & Heq & Hin). injection Heq as <-. simpl in Hin.
    apply list_elem_of_filter in Hin as [Hsat Hin]. split; [|exact Hsat].
    exists cu. auto.
  - intros [(cu' & Hcu' & Hin) Hsat]. assert (cu' = cu) by congruence. subst cu'.
    eexists. split; [reflexivity|]. simpl. apply list_elem_of_filter. auto.
Qed.

Lemma use_discount_tracked c i d h self r :
  o_customer self = Some c -> r <> Some i ->
  hoare (tracked c i d h) (use_discount self r)
        (fun _ => tracked c i d h) (tracked c i d h).
Proof.
  intros Hc Hr. apply use_discount_preserves.
  - intros s j dj -> Hj (Hu & Hi & Hh).
    assert (Hij : i <> j) by congruence.
    split; [|split].
    + unfold unique_ids. rewrite (decrement_ids s j dj Hj). exact Hu.
    + rewrite decrement_lookup_ne by exact Hij. exact Hi.
    + exact Hh.
  - intros s c' cu j dj -> Hj Hc' Hcu (Hu & Hi & Hh).
    assert (c' = c) by congruence. subst c'.
    assert (Hij : i <> j) by congruence.
    split; [exact Hu|]. split; [exact Hi|].
    rewrite (holds_ref_removed s c cu dj (Some i) Hcu), <- Hh.
    simpl. rewrite Hi, (unique_ids_other s i j d dj Hu Hi Hj Hij). tauto.
Qed.

Lemma calculate_total_price_store dist now self s :
  (calculate_total_price dist now self s).2 = (total_before_shipping now self s).2.
Proof.
  unfold calculate_total_price, bind.
  destruct (total_before_shipping now self s) as [[total|e] s1]; [|reflexivity].
  assert (Hr : reads (add_shipping dist self total)).
  { apply reads_bind; [apply reads_attr|]. intros c.
    apply reads_bind; [apply reads_get_customer|]. intros cu. apply reads_ret. }
  apply Hr.
Qed.

(** C8. A general discount that is not valid when the total is calculated
    is left as it was: its record in the registry is unchanged (so its
    [nb_usage] is not decremented) and the customer still holds it. *)
Theorem invalid_general_discount_untouched dist now self s c cu i d :
  o_customer self = Some c -> md_customers s !! c = Some cu ->
  unique_ids s ->
  Some i ∈ c_discounts cu -> md_discounts s !! i = Some d ->
  valid now d = false -> truthy (d_author_specific d) = false ->
  let s' := (calculate_total_price dist now self s).2 in
  md_discounts s' !! i = Some d /\
  exists cu', md_customers s' !! c = Some cu' /\ Some i ∈ c_discounts cu'.
Proof.
  intros Hc Hcu Hu Hin Hi Hvalid _ s'. subst s'.
  rewrite calculate_total_price_store.
  assert (H : tracked c i d True (total_before_shipping now self s).2).
  { apply total_before_shipping_preserves.
    - intros r Hr. apply use_discount_tracked; [exact Hc|].
      intros ->. simpl in Hr. rewrite Hi in Hr. congruence.
    - split; [exact Hu|]. split; [exact Hi|]. split; [auto|].
      intros _. exists cu. auto. }
  destruct H as (_ & Hi' & Hh). split; [exact Hi'|]. apply Hh. exact I.
Qed.

(** ** Calculations that cannot raise *)

(** Every reference customer [c] holds names a discount of the registry. *)
Definition refs_ok (c : nat) (s : MasterData) : Prop :=
  exists cu, md_customers s !! c = Some cu /\ Forall (resolvable s) (c_discounts cu).

Lemma resolvable_lt s r : resolvable s r <-> exists j, r = Some j /\ (j < length (md_discounts s))%nat.
Proof.
  split.
  - intros (d & j & -> & Hj). exists j. split; [reflexivity|]. eapply lookup_lt_Some, Hj.
  - intros (j & -> & Hj). apply lookup_lt_is_Some in Hj as [d Hd]. exists d, j. auto.
Qed.

Lemma resolvable_same_size s s' r :
  length (md_discounts s') = length (md_discounts s) ->
  resolvable s r -> resolvable s' r.
Proof. intros Hlen. rewrite !resolvable_lt, Hlen. auto. Qed.

Lemma decrement_size s j d :
  length (md_discounts (decrement s j d)) = length (md_discounts s).
Proof. simpl. apply length_insert. Qed.

Lemma refs_ok_decrement c s j d : refs_ok c s -> refs_ok c (decrement s j d).
Proof.
  intros (cu & Hcu & Hall). exists cu. split; [exact Hcu|].
  eapply Forall_impl; [exact Hall|]. intros r.
  apply resolvable_same_size, decrement_size.
Qed.

Lemma refs_ok_removed c s cu dj :
  md_customers s !! c = Some cu -> refs_ok c s -> refs_ok c (removed s c cu dj).
Proof.
  intros Hcu (cu' & Hcu' & Hall). assert (cu' = cu) by congruence. subst cu'.
  eexists. split; [apply removed_lookup, Hcu|]. simpl.
  apply Forall_forall. intros r Hr. apply list_elem_of_filter in Hr as [_ Hr].
  rewrite Forall_forall in Hall. apply (Hall r Hr).
Qed.

(** With resolvable references the use of a discount returns, in a store
    that is determined by the counter. *)
Lemma remove_discount_run self c cu r d s :
  o_customer self = Some c -> md_customers s !! c = Some cu ->
  Forall (resolvable s) (c_discounts cu) -> resolves s r d ->
  remove_discount self r s = (Return tt, removed s c cu d).
Proof.
  intros Hc Hcu Hall Hr.
  destruct (remove_discount_cases self r s d Hr)
    as [(c' & cu' & Hc' & Hcu' & _ & Hrun)|[e Hrun]].
  - assert (c' = c) by congruence. subst c'.
    assert (cu' = cu) by congruence. subst cu'. exact Hrun.
  - exfalso. revert Hrun. unfold remove_discount, customer_of. rewrite Hc. simpl.
    rewrite (bind_Return _ _ _ c s) by reflexivity.
    rewrite (bind_Return _ _ _ _ _ (get_customer_Some c cu s Hcu)).
    rewrite (bind_congr _ (filterM (test_ref (other_id d)) (c_discounts cu))).
    + destruct (filterM_test_ref (other_id d) (c_discounts cu) s)
        as [[_ Hf]|[Hn _]]; [|contradiction].
      rewrite (bind_Return _ _ _ _ _ Hf), (set_discounts_Some c cu _ s Hcu).
      discriminate.
    + apply filterM_ext.
      * intros x. apply reads_bind; [apply reads_deref|]. intros dx.
        apply reads_bind; [apply reads_deref|]. intros dr. apply reads_ret.
      * intros x. unfold test_ref, bind at 1 3.
        destruct (deref x s) as [[dx|e'] s'] eqn:Hx; [|reflexivity].
        pose proof (reads_deref x s) as Hs. rewrite Hx in Hs. simpl in Hs. subst s'.
        rewrite (bind_Return _ _ _ _ _ (resolves_deref s r d Hr)). reflexivity.
Qed.

Lemma use_discount_run self c cu j d s :
  o_customer self = Some c -> md_customers s !! c = Some cu ->
  Forall (resolvable s) (c_discounts cu) -> md_discounts s !! j = Some d ->
  use_discount self (Some j) s =
  (Return tt,
   if d_nb_usage d =? 1 then removed (decrement s j d) c cu d else decrement s j d).
Proof.
  intros Hc Hcu Hall Hj. rewrite (use_discount_unfold self j d s Hj).
  destruct (d_nb_usage d =? 1) eqn:Hone.
  - apply Z.eqb_eq in Hone. rewrite Hone. simpl.
    apply (remove_discount_run self c cu (Some j)
             (with_nb_usage d (d_nb_usage d - 1)) (decrement s j d) Hc Hcu).
    + eapply Forall_impl; [exact Hall|]. intros r.
      apply resolvable_same_size, decrement_size.
    + exists j. split; [reflexivity | apply decrement_lookup, Hj].
  - apply Z.eqb_neq in Hone.
    destruct (d_nb_usage d - 1 =? 0) eqn:Hz; [apply Z.eqb_eq in Hz; lia | reflexivity].
Qed.

Lemma removed_size s c cu d :
  length (md_discounts (removed s c cu d)) = length (md_discounts s).
Proof. reflexivity. Qed.

Lemma tracked_iff c i d h h' s : (h <-> h') -> tracked c i d h s -> tracked c i d h' s.
Proof. intros Hh (Hu & Hi & Hold). split; [exact Hu|]. split; [exact Hi|]. tauto. Qed.

Lemma with_nb_usage_same d : with_nb_usage d (d_nb_usage d) = d.
Proof. destruct d; reflexivity. Qed.

(** One use of the discount stored at [j], seen from the discount stored at
    [i]: its own use decrements it, and removes it when the counter was 1;
    the use of another discount leaves it alone. *)
Lemma use_discount_step self c i j s d h :
  o_customer self = Some c -> refs_ok c s ->
  is_Some (md_discounts s !! j) -> tracked c i d h s ->
  exists s1,
    use_discount self (Some j) s = (Return tt, s1) /\
    refs_ok c s1 /\
    length (md_discounts s1) = length (md_discounts s) /\
    tracked c i
      (if decide (j = i) then with_nb_usage d (d_nb_usage d - 1) else d)
      (if decide (j = i) then h /\ d_nb_usage d <> 1 else h) s1.
Proof.
  intros Hc Hok [dj Hj] Ht.
  pose proof Hok as (cu & Hcu & Hall).
  pose proof (use_discount_run self c cu j dj s Hc Hcu Hall Hj) as Hrun.
  eexists. split; [exact Hrun|].
  split; [|split].
  - destruct (d_nb_usage dj =? 1).
    + apply refs_ok_removed; [exact Hcu | apply refs_ok_decrement, Hok].
    + apply refs_ok_decrement, Hok.
  - destruct (d_nb_usage dj =? 1); [rewrite removed_size|]; apply decrement_size.
  - destruct (decide (j = i)) as [->|Hne].
    + destruct Ht as (Hu & Hi & Hh). assert (dj = d) by congruence. subst dj.
      assert (Hu' : unique_ids (decrement s i d))
        by (unfold unique_ids; rewrite (decrement_ids s i d Hi); exact Hu).
      destruct (d_nb_usage d =? 1) eqn:Hone.
      * apply Z.eqb_eq in Hone.
        split; [exact Hu'|]. split; [apply decrement_lookup, Hi|].
        rewrite (holds_ref_removed (decrement s i d) c cu d (Some i) Hcu).
        rewrite (resolves_ref_sat (other_id d) (decrement s i d) (Some i)
                   (with_nb_usage d (d_nb_usage d - 1)))
          by (exists i; split; [reflexivity | apply decrement_lookup, Hi]).
        unfold other_id. simpl. rewrite Z.eqb_refl. simpl.
        split; [intros [_ Hf]; discriminate | intros [_ Hf]; contradiction].
      * apply Z.eqb_neq in Hone.
        split; [exact Hu'|]. split; [apply decrement_lookup, Hi|].
        rewrite <- Hh. unfold holds_ref. simpl. tauto.
    + pose proof (use_discount_tracked c i d h self (Some j) Hc) as Hframe.
      assert (Hji : Some j <> Some i) by congruence.
      specialize (Hframe Hji s Ht). rewrite Hrun in Hframe. exact Hframe.
Qed.

(** How often the discount stored at [i] is referenced in [l]. *)
Definition occurrences (i : nat) (l : list ref) : Z :=
  Z.of_nat (length (filter (fun r => r = Some i) l)).

Lemma occurrences_nonneg i l : 0 <= occurrences i l.
Proof. unfold occurrences. lia. Qed.

Lemma occurrences_cons i r l :
  occurrences i (r :: l) = (if decide (r = Some i) then 1 else 0) + occurrences i l.
Proof.
  unfold occurrences. rewrite filter_cons.
  unfold ref in *. repeat case_decide; try contradiction; simpl length; lia.
Qed.

(** The order-level loop, seen from the discount stored at [i]: one
    decrement for each of its occurrences in [vd], and the customer holds it
    afterwards unless the counter passed through 0. *)
Lemma apply_discounts_tracks self c i vd : forall total s d h,
  o_customer self = Some c -> refs_ok c s ->
  Forall (resolvable s) vd -> tracked c i d h s ->
  exists total' s',
    apply_discounts self vd total s = (Return total', s') /\
    refs_ok c s' /\
    length (md_discounts s') = length (md_discounts s) /\
    tracked c i (with_nb_usage d (d_nb_usage d - occurrences i vd))
            (h /\ ~ (1 <= d_nb_usage d <= occurrences i vd)) s' /\
    ((total == 0)%Q -> (total' == 0)%Q).
Proof.
  induction vd as [|r vd IH]; intros total s d h Hc Hok Hres Ht.
  - exists total, s. split; [reflexivity|]. split; [exact Hok|]. split; [reflexivity|].
    split; [|auto].
    unfold occurrences. simpl. rewrite Z.sub_0_r, with_nb_usage_same.
    eapply tracked_iff; [|exact Ht]. intuition lia.
  - inversion Hres as [|r' vd' [dj (j & -> & Hj)] Hres']; subst.
    destruct (use_discount_step self c i j s d h Hc Hok (mk_is_Some _ _ Hj) Ht)
      as (s1 & Hrun & Hok1 & Hlen1 & Ht1).
    assert (Hres1 : Forall (resolvable s1) vd).
    { eapply Forall_impl; [exact Hres'|]. intros x.
      apply resolvable_same_size, Hlen1. }
    destruct (IH (total * (1 - d_amount dj))%Q s1 _ _ Hc Hok1 Hres1 Ht1)
      as (total' & s' & Hloop & Hok' & Hlen' & Ht' & Hzero).
    exists total', s'. split; [|split; [exact Hok'|split; [congruence|split]]].
    + assert (Hone : apply_discount self total (Some j) s =
                     (Return (total * (1 - d_amount dj))%Q, s1)).
      { unfold apply_discount.
        rewrite (bind_Return _ _ _ _ _ (deref_Some j dj s Hj)).
        rewrite (bind_Return _ _ _ _ _ Hrun). reflexivity. }
      unfold apply_discounts. simpl.
      rewrite (bind_Return _ _ _ _ _ Hone). exact Hloop.
    + rewrite occurrences_cons. pose proof (occurrences_nonneg i vd) as Hk.
      destruct (decide (j = i)) as [->|Hne].
      * rewrite decide_True by reflexivity. simpl in Ht'.
        replace (d_nb_usage d - (1 + occurrences i vd))
          with (d_nb_usage d - 1 - occurrences i vd) by lia.
        eapply tracked_iff; [|exact Ht']. intuition lia.
      * rewrite decide_False by congruence.
        replace (d_nb_usage d - (0 + occurrences i vd))
          with (d_nb_usage d - occurrences i vd) by lia.
        eapply tracked_iff; [|exact Ht']. intuition lia.
    + intros Hz. apply Hzero. rewrite Hz. ring.
Qed.


Lemma occurrences_absent i l : Some i ∉ l -> occurrences i l = 0.
Proof.
  induction l as [|r l IH]; intros Hnotin; [reflexivity|].
  rewrite occurrences_cons, IH.
  - rewrite decide_False; [reflexivity|]. intros ->. apply Hnotin. left.
  - intros Hin. apply Hnotin. right. exact Hin.
Qed.


Lemma occurrences_filter q s i l :
  ref_sat q s (Some i) = true ->
  occurrences i (filter (fun r => ref_sat q s r = true) l) = occurrences i l.
Proof.
  intros Hq. induction l as [|r l IH]; [reflexivity|].
  rewrite filter_cons, (occurrences_cons i r l).
  destruct (decide (ref_sat q s r = true)) as [Hr|Hr].
  - rewrite occurrences_cons, IH. reflexivity.
  - rewrite IH, decide_False; [reflexivity|]. intros ->. contradiction.
Qed.






Lemma held_refs_run q self c cu s :
  o_customer self = Some c -> md_customers s !! c = Some cu ->
  Forall (resolvable s) (c_discounts cu) ->
  held_refs q self s =
  (Return (filter (fun r => ref_sat q s r = true) (c_discounts cu)), s).
Proof.
  intros Hc Hcu Hall. unfold held_refs, customer_of. rewrite Hc. simpl.
  rewrite (bind_Return _ _ _ c s) by reflexivity.
  rewrite (bind_Return _ _ _ _ _ (get_customer_Some c cu s Hcu)).
  destruct (filterM_test_ref q (c_discounts cu) s) as [[_ Hrun]|[Hn _]];
    [exact Hrun | contradiction].
Qed.



Module Scenario.
Import Sample.

(** Four copies of a 12.50 book: a running total of exactly 50. *)
Definition fifty : Order := mkOrder [(Some restaurant, 4)] (Some 0%nat).

(** John and Jane receive the tenure discount and the expired discount. *)
Definition assigned : MasterData :=
  after (discount_location 5 "Berlin")
        (after (discount_one_year_customers now 1) store).

Definition dune_ordered : MasterData :=
  after (select_and_place_order "john_doe" [("Dune"%string, 1)]) assigned.



Definition customer_at (c : nat) (s : MasterData) : Customer :=
  default john (md_customers s !! c).

End Scenario.

Lemma shipping_waiver_is_strict_witness :
  exists total,
    (total == 50)%Q /\
    calculate_total_price Sample.distance Sample.now Scenario.fifty Sample.store =
    (Return (round2 (total + shipping_cost Sample.distance "paris" "berlin")),
     Sample.store).
Proof.
  exists (5000 # 100)%Q. split; [reflexivity|].
  destruct (shipping_waiver_is_strict Sample.distance Sample.now Scenario.fifty
              Sample.store (5000 # 100)%Q Sample.store)
    as (c & cu & Hc & Hcu & Hfifty & _).
  { vm_compute. reflexivity. }
  injection Hc as <-. injection Hcu as <-.
  apply Hfifty. reflexivity.
Defined.

Lemma invalid_general_discount_untouched_witness :
  let s := Scenario.dune_ordered in
  let s' := (calculate_total_price Sample.distance Sample.now
               (Sample.order_of 0 s) s).2 in
  Sample.discounts_of 0 s = [Some 0%nat; Some 4%nat] /\
  md_discounts s' !! 4%nat = Some Sample.expired /\
  exists cu', md_customers s' !! 0%nat = Some cu' /\ Some 4%nat ∈ c_discounts cu'.
Proof.
  split; [vm_compute; reflexivity|].
  eapply (invalid_general_discount_untouched Sample.distance Sample.now
            (Sample.order_of 0 Scenario.dune_ordered) Scenario.dune_ordered
            0%nat _ 4%nat Sample.expired).
  - vm_compute. reflexivity.
  - vm_compute. reflexivity.
  - apply (bool_decide_unpack _). vm_compute. exact I.
  - simpl. right. left.
  - vm_compute. reflexivity.
  - vm_compute. reflexivity.
  - vm_compute. reflexivity.
Defined.



(** ** Pricing the same order twice *)

(** The sum the loop over the lines accumulates when the line of book [b]
    is priced with the factor [f b]. *)
Definition lines_sum (f : Book -> Q) (lines : list (Book * Z)) (acc : Q) : Q :=
  fold_left (fun t line => (t + b_price line.1 * f line.1 * inject_Z line.2)%Q)
            lines acc.

(** The lines of an order all of whose books were found. *)
Definition found_lines (lines : list (Book * Z)) : list (option Book * Z) :=
  map (fun line => (Some line.1, line.2)) lines.


Lemma foldM_price_line_plain self lines : forall acc s,
  foldM (price_line self []) (found_lines lines) acc s =
  (Return (lines_sum (fun _ => 1%Q) lines acc), s).
Proof.
  induction lines as [|[b q] lines IH]; intros acc s; [reflexivity|].
  simpl. rewrite (bind_Return _ _ _ (acc + b_price b * 1 * inject_Z q)%Q s)
    by reflexivity.
  apply IH.
Qed.









Lemma lines_sum_cons f line lines acc :
  lines_sum f (line :: lines) acc =
  lines_sum f lines (acc + b_price line.1 * f line.1 * inject_Z line.2)%Q.
Proof. reflexivity. Qed.





Module Twice.
Import Sample.

(** John holds the tenure discount alone and orders four copies of the
    Guide: 51.96 before any discount. *)
Definition tenure_assigned : MasterData :=
  after (discount_one_year_customers now 1) store.







End Twice.



(** * Further properties of the module *)

(** ** The store during a calculation *)

(** [s'] has the discounts of [s], possibly with other counters. *)
Definition agrees (s s' : MasterData) : Prop :=
  forall j d, md_discounts s !! j = Some d ->
              exists n, md_discounts s' !! j = Some (with_nb_usage d n).

Lemma agrees_refl s : agrees s s.
Proof. intros j d Hj. exists (d_nb_usage d). rewrite with_nb_usage_same. exact Hj. Qed.

Lemma agrees_decrement s s' j d' :
  agrees s s' -> md_discounts s' !! j = Some d' -> agrees s (decrement s' j d').
Proof.
  intros Hag Hj k d Hk. destruct (Hag k d Hk) as [n Hn].
  destruct (decide (k = j)) as [->|Hne].
  - assert (d' = with_nb_usage d n) by congruence. subst d'.
    exists (n - 1). rewrite (decrement_lookup s' j _ Hj). reflexivity.
  - exists n. rewrite decrement_lookup_ne by exact Hne. exact Hn.
Qed.

(** What a calculation for customer [c] started in [s] keeps true. *)
Definition running (s : MasterData) (c : nat) (s' : MasterData) : Prop :=
  agrees s s' /\ refs_ok c s' /\ length (md_discounts s') = length (md_discounts s).

Lemma running_start s c cu :
  md_customers s !! c = Some cu -> Forall (resolvable s) (c_discounts cu) ->
  running s c s.
Proof.
  intros Hcu Hall. split; [apply agrees_refl|]. split; [exists cu; auto | reflexivity].
Qed.

Lemma running_resolvable s c s' r : running s c s' -> resolvable s r -> resolvable s' r.
Proof. intros (_ & _ & Hlen). apply resolvable_same_size, Hlen. Qed.

Lemma running_lookup s c s' j d :
  running s c s' -> md_discounts s !! j = Some d ->
  exists n, md_discounts s' !! j = Some (with_nb_usage d n).
Proof. intros (Hag & _). apply Hag. Qed.

(** Using a discount of the registry returns and keeps the calculation
    running. *)
Lemma use_discount_running self s c s1 j :
  o_customer self = Some c -> running s c s1 -> is_Some (md_discounts s1 !! j) ->
  exists s2, use_discount self (Some j) s1 = (Return tt, s2) /\ running s c s2.
Proof.
  intros Hc (Hag & Hok & Hlen) [dj Hj].
  pose proof Hok as (cu & Hcu & Hall).
  rewrite (use_discount_run self c cu j dj s1 Hc Hcu Hall Hj).
  eexists. split; [reflexivity|].
  pose proof (agrees_decrement s s1 j dj Hag Hj) as Hag'.
  destruct (d_nb_usage dj =? 1).
  - split; [exact Hag'|]. split.
    + apply refs_ok_removed; [exact Hcu | apply refs_ok_decrement, Hok].
    + rewrite removed_size, decrement_size. exact Hlen.
  - split; [exact Hag'|]. split; [apply refs_ok_decrement, Hok|].
    rewrite decrement_size. exact Hlen.
Qed.

(** ** The running total as a formula *)

(** The discounts a list of references names in [s]. *)
Definition discounts_at (s : MasterData) (l : list ref) : list Discount :=
  omap (fun r : ref => r ≫= fun j => md_discounts s !! j) l.

(** [1 - amount] of the first discount of [asd] scoped to the author of [b],
    or 1 when there is none. *)
Definition factor (asd : list Discount) (b : Book) : Q :=
  match List.find (fun d => eq_author (d_author_specific d) (b_author b)) asd with
  | Some d => (1 - d_amount d)%Q
  | None => 1%Q
  end.

(** Every line priced with its factor, then every general discount applied
    to the sum, for the discounts of [held] that are valid at [now]. *)
Definition expected_total (now : datetime) (held : list Discount)
           (lines : list (Book * Z)) : Q :=
  fold_left (fun t d => (t * (1 - d_amount d))%Q)
            (List.filter (general now) held)
            (lines_sum (factor (List.filter (author_scoped now) held)) lines 0).

Lemma discounts_at_cons s r l d :
  resolves s r d -> discounts_at s (r :: l) = d :: discounts_at s l.
Proof. intros (j & -> & Hj). unfold discounts_at. simpl. rewrite Hj. reflexivity. Qed.

Lemma discounts_at_filter q s l :
  Forall (resolvable s) l ->
  discounts_at s (filter (fun r => ref_sat q s r = true) l) =
  List.filter q (discounts_at s l).
Proof.
  induction 1 as [|r l [d Hd] _ IH]; [reflexivity|].
  rewrite filter_cons, (discounts_at_cons s r l d Hd), (resolves_ref_sat q s r d Hd).
  simpl. destruct (q d) eqn:Hq.
  - rewrite decide_True by reflexivity.
    rewrite (discounts_at_cons s r _ d Hd), IH. reflexivity.
  - rewrite decide_False by discriminate. exact IH.
Qed.

(** The search of line 115, run while the calculation started in [s] is
    under way: it finds what the search among the initial discounts finds. *)
Lemma next_or_none_running s c s1 asd b :
  running s c s1 -> Forall (resolvable s) asd ->
  let q := fun d => eq_author (d_author_specific d) (b_author b) in
  exists psd,
    next_or_none
      (fun discount =>
         bind (deref discount)
              (fun d => bind (attr (Some b))
                             (fun b0 => ret (eq_author (d_author_specific d) (b_author b0)))))
      asd s1 = (Return psd, s1) /\
    ((psd = None /\ List.find q (discounts_at s asd) = None) \/
     (exists j d n, psd = Some j /\ md_discounts s1 !! j = Some (with_nb_usage d n) /\
                    List.find q (discounts_at s asd) = Some d)).
Proof.
  intros Hrun Hall q. induction Hall as [|r asd [d Hd] _ IH].
  - exists None. split; [reflexivity|]. left. auto.
  - pose proof Hd as (j & -> & Hj).
    destruct (running_lookup s c s1 j d Hrun Hj) as [n Hn].
    rewrite (discounts_at_cons s (Some j) asd d Hd). simpl List.find. simpl next_or_none.
    assert (Htest : bind (deref (Some j))
                         (fun d0 => bind (attr (Some b))
                                         (fun b0 => ret (eq_author (d_author_specific d0)
                                                                   (b_author b0)))) s1
                    = (Return (q d), s1)).
    { rewrite (bind_Return _ _ _ _ _ (deref_Some j _ s1 Hn)). reflexivity. }
    rewrite (bind_Return _ _ _ _ _ Htest).
    destruct (q d) eqn:Hq.
    + exists (Some j). split; [reflexivity|]. right. exists j, d, n. auto.
    + exact IH.
Qed.

Lemma price_line_running self s c s1 asd acc b q :
  o_customer self = Some c -> running s c s1 -> Forall (resolvable s) asd ->
  exists s2,
    price_line self asd acc (Some b, q) s1 =
    (Return (acc + b_price b * factor (discounts_at s asd) b * inject_Z q)%Q, s2) /\
    running s c s2.
Proof.
  intros Hc Hrun Hall.
  destruct (next_or_none_running s c s1 asd b Hrun Hall) as (psd & Hnext & Hpsd).
  unfold price_line. simpl fst. simpl snd.
  rewrite (bind_Return _ _ _ _ _ Hnext). unfold factor.
  destruct Hpsd as [[-> ->]|(j & d & n & -> & Hj & ->)].
  - exists s1. split; [|exact Hrun].
    rewrite (bind_Return _ _ _ 1%Q s1) by reflexivity.
    rewrite (bind_Return _ _ _ b s1) by reflexivity.
    reflexivity.
  - destruct (use_discount_running self s c s1 j Hc Hrun (mk_is_Some _ _ Hj))
      as (s2 & Huse & Hrun2).
    exists s2. split; [|exact Hrun2].
    rewrite (bind_Return _ _ _ (1 - d_amount d)%Q s1)
      by (rewrite (bind_Return _ _ _ _ _ (deref_Some j _ s1 Hj)); reflexivity).
    rewrite (bind_Return _ _ _ b s1) by reflexivity.
    rewrite (bind_Return _ _ _ _ _ Huse). reflexivity.
Qed.

Lemma price_lines_running self s c asd lines :
  o_customer self = Some c -> Forall (resolvable s) asd ->
  forall acc s1, running s c s1 ->
  exists s2,
    foldM (price_line self asd) (found_lines lines) acc s1 =
    (Return (lines_sum (factor (discounts_at s asd)) lines acc), s2) /\
    running s c s2.
Proof.
  intros Hc Hall. induction lines as [|[b q] lines IH]; intros acc s1 Hrun.
  - exists s1. split; [reflexivity | exact Hrun].
  - destruct (price_line_running self s c s1 asd acc b q Hc Hrun Hall)
      as (s2 & Hline & Hrun2).
    destruct (IH (acc + b_price b * factor (discounts_at s asd) b * inject_Z q)%Q
                 s2 Hrun2) as (s3 & Hrest & Hrun3).
    exists s3. split; [|exact Hrun3].
    simpl foldM. rewrite (bind_Return _ _ _ _ _ Hline). exact Hrest.
Qed.

Lemma apply_discounts_running self s c vd :
  o_customer self = Some c -> Forall (resolvable s) vd ->
  forall acc s1, running s c s1 ->
  exists s2,
    apply_discounts self vd acc s1 =
    (Return (fold_left (fun t d => (t * (1 - d_amount d))%Q) (discounts_at s vd) acc), s2) /\
    running s c s2.
Proof.
  intros Hc Hall. induction Hall as [|r vd [d Hd] _ IH]; intros acc s1 Hrun.
  - exists s1. split; [reflexivity | exact Hrun].
  - pose proof Hd as (j & -> & Hj).
    destruct (running_lookup s c s1 j d Hrun Hj) as [n Hn].
    destruct (use_discount_running self s c s1 j Hc Hrun (mk_is_Some _ _ Hn))
      as (s2 & Huse & Hrun2).
    destruct (IH (acc * (1 - d_amount d))%Q s2 Hrun2) as (s3 & Hrest & Hrun3).
    exists s3. split; [|exact Hrun3].
    rewrite (discounts_at_cons s (Some j) vd d Hd). simpl fold_left.
    assert (Hap : apply_discount self acc (Some j) s1 =
                  (Return (acc * (1 - d_amount d))%Q, s2)).
    { unfold apply_discount.
      rewrite (bind_Return _ _ _ _ _ (deref_Some j _ s1 Hn)).
      rewrite (bind_Return _ _ _ _ _ Huse). reflexivity. }
    unfold apply_discounts. simpl foldM.
    rewrite (bind_Return _ _ _ _ _ Hap). exact Hrest.
Qed.

Lemma Forall_resolvable_filter s (P : ref -> Prop) `{!forall r, Decision (P r)} l :
  Forall (resolvable s) l -> Forall (resolvable s) (filter P l).
Proof.
  rewrite !Forall_forall. intros Hall r Hr.
  apply list_elem_of_filter in Hr as [_ Hr]. apply Hall, Hr.
Qed.

(** The running total is a formula of the discounts the customer holds when
    the calculation starts: the counters play no part in it. *)
Theorem total_before_shipping_formula now self s c cu lines :
  o_customer self = Some c -> md_customers s !! c = Some cu ->
  Forall (resolvable s) (c_discounts cu) -> o_books self = found_lines lines ->
  exists s',
    total_before_shipping now self s =
    (Return (expected_total now (discounts_at s (c_discounts cu)) lines), s').
Proof.
  intros Hc Hcu Hall Hbooks. unfold total_before_shipping, expected_total.
  rewrite author_specific_discounts_held, valid_discounts_held.
  rewrite (bind_Return _ _ _ _ _ (held_refs_run (author_scoped now) self c cu s Hc Hcu Hall)).
  rewrite (bind_Return _ _ _ _ _ (held_refs_run (general now) self c cu s Hc Hcu Hall)).
  rewrite <- !discounts_at_filter by exact Hall.
  set (asd := filter _ (c_discounts cu)). set (vd := filter _ (c_discounts cu)).
  assert (Hasd : Forall (resolvable s) asd) by (apply Forall_resolvable_filter, Hall).
  assert (Hvd : Forall (resolvable s) vd) by (apply Forall_resolvable_filter, Hall).
  destruct (price_lines_running self s c asd lines Hc Hasd 0%Q s
              (running_start s c cu Hcu Hall)) as (s1 & Hlines & Hrun1).
  unfold price_lines. rewrite Hbooks, (bind_Return _ _ _ _ _ Hlines).
  destruct (apply_discounts_running self s c vd Hc Hvd
              (lines_sum (factor (discounts_at s asd)) lines 0) s1 Hrun1)
    as (s2 & Hord & _).
  exists s2. exact Hord.
Qed.

(** The price in exact arithmetic: the rounded formula of the discounts held
    at the start, with shipping unless the total exceeds 50. *)
Lemma calculate_total_price_formula dist now self s c cu lines :
  o_customer self = Some c -> md_customers s !! c = Some cu ->
  Forall (resolvable s) (c_discounts cu) -> o_books self = found_lines lines ->
  let total := expected_total now (discounts_at s (c_discounts cu)) lines in
  exists s',
    calculate_total_price dist now self s =
    (Return (round2 (total + (if Qltb 50 total then 0
                              else shipping_cost dist "paris" (c_location cu)))%Q), s').
Proof.
  intros Hc Hcu Hall Hbooks total.
  destruct (total_before_shipping_formula now self s c cu lines Hc Hcu Hall Hbooks)
    as (s' & Hrun).
  destruct (total_before_shipping_customer now self s _ s' Hrun)
    as (c' & cu0 & Hc' & Hcu0 & cu' & Hcu' & Hloc).
  assert (c' = c) by congruence. subst c'.
  assert (cu0 = cu) by congruence. subst cu0.
  exists s'. unfold calculate_total_price.
  rewrite (bind_Return _ _ _ _ _ Hrun).
  rewrite (add_shipping_run dist self c cu' _ s' Hc Hcu'), Hloc. reflexivity.
Qed.

(** ** The counters and the price *)

(** [d'] is [d] with another counter. *)
Definition same_but_usage (d d' : Discount) : Prop := exists n, d' = with_nb_usage d n.

Lemma discounts_at_agrees s s' l :
  agrees s s' -> Forall (resolvable s) l ->
  Forall (resolvable s') l /\
  Forall2 same_but_usage (discounts_at s l) (discounts_at s' l).
Proof.
  intros Hag. induction 1 as [|r l [d Hd] _ [IHres IHrel]].
  - split; constructor.
  - pose proof Hd as (j & -> & Hj). destruct (Hag j d Hj) as [n Hn].
    assert (Hd' : resolves s' (Some j) (with_nb_usage d n)) by (exists j; auto).
    split; [constructor; [exists (with_nb_usage d n); exact Hd' | exact IHres]|].
    rewrite (discounts_at_cons s (Some j) l d Hd).
    rewrite (discounts_at_cons s' (Some j) l _ Hd').
    constructor; [exists n; reflexivity | exact IHrel].
Qed.

Lemma filter_same_but_usage (q : Discount -> bool) l l' :
  (forall d n, q (with_nb_usage d n) = q d) ->
  Forall2 same_but_usage l l' ->
  Forall2 same_but_usage (List.filter q l) (List.filter q l').
Proof.
  intros Hq. induction 1 as [|d d' l l' [n ->] _ IH]; [constructor|].
  simpl. rewrite Hq. destruct (q d); [|exact IH].
  constructor; [exists n; reflexivity | exact IH].
Qed.

Lemma factor_same_but_usage asd asd' b :
  Forall2 same_but_usage asd asd' -> factor asd b = factor asd' b.
Proof.
  unfold factor. induction 1 as [|d d' l l' [n ->] _ IH]; [reflexivity|].
  simpl. destruct (eq_author (d_author_specific d) (b_author b)); [reflexivity | exact IH].
Qed.

Lemma fold_same_but_usage vd vd' :
  Forall2 same_but_usage vd vd' ->
  forall acc : Q,
    fold_left (fun t d => (t * (1 - d_amount d))%Q) vd acc =
    fold_left (fun t d => (t * (1 - d_amount d))%Q) vd' acc.
Proof.
  induction 1 as [|d d' l l' [n ->] _ IH]; intros acc; [reflexivity|].
  simpl. apply IH.
Qed.

Lemma lines_sum_ext f g lines :
  (forall b, f b = g b) -> forall acc, lines_sum f lines acc = lines_sum g lines acc.
Proof.
  intros Hfg. induction lines as [|line lines IH]; intros acc; [reflexivity|].
  rewrite !lines_sum_cons, Hfg. apply IH.
Qed.

Lemma expected_total_same_but_usage now held held' lines :
  Forall2 same_but_usage held held' ->
  expected_total now held lines = expected_total now held' lines.
Proof.
  intros Hrel. unfold expected_total.
  rewrite (fold_same_but_usage _ _
             (filter_same_but_usage (general now) held held' (fun d n => eq_refl) Hrel)).
  f_equal. apply lines_sum_ext. intros b. apply factor_same_but_usage.
  apply filter_same_but_usage; [intros d n; reflexivity | exact Hrel].
Qed.

(** X1. The usage counters play no part in the price.  For a customer whose
    references all name discounts of the registry and an order all of whose
    books exist, two stores that hold the same customer and differ in the
    [nb_usage] of their discounts only give the same outcome of
    [calculate_total_price]: a discount whose counter is 0 or negative is
    applied like any other. *)
Theorem price_ignores_usage_counters dist now self s s' c cu lines :
  o_customer self = Some c ->
  md_customers s !! c = Some cu -> md_customers s' !! c = Some cu ->
  Forall (resolvable s) (c_discounts cu) -> o_books self = found_lines lines ->
  agrees s s' ->
  (calculate_total_price dist now self s').1 = (calculate_total_price dist now self s).1.
Proof.
  intros Hc Hcu Hcu' Hall Hbooks Hag.
  destruct (discounts_at_agrees s s' (c_discounts cu) Hag Hall) as [Hall' Hrel].
  destruct (calculate_total_price_formula dist now self s c cu lines Hc Hcu Hall Hbooks)
    as (s1 & Hrun).
  destruct (calculate_total_price_formula dist now self s' c cu lines Hc Hcu' Hall' Hbooks)
    as (s1' & Hrun').
  rewrite Hrun, Hrun'.
  rewrite (expected_total_same_but_usage now _ _ lines Hrel). reflexivity.
Qed.

(** ** What a calculation leaves alone *)

(** [s'] differs from [s] at most in the counters of the discounts, which
    have not grown, and in the list of customer [c], which has lost
    references. *)
Definition framed (s : MasterData) (c : nat) (s' : MasterData) : Prop :=
  md_books s' = md_books s /\
  length (md_discounts s') = length (md_discounts s) /\
  (forall j d, md_discounts s !! j = Some d ->
               exists n, md_discounts s' !! j = Some (with_nb_usage d n) /\
                         n <= d_nb_usage d) /\
  length (md_customers s') = length (md_customers s) /\
  (forall c' cu', md_customers s !! c' = Some cu' ->
                  exists l, md_customers s' !! c' = Some (with_discounts cu' l) /\
                            sublist l (c_discounts cu') /\
                            (c' <> c -> l = c_discounts cu')).

Lemma with_discounts_same cu : with_discounts cu (c_discounts cu) = cu.
Proof. destruct cu; reflexivity. Qed.

Lemma framed_refl s c : framed s c s.
Proof.
  split; [reflexivity|]. split; [reflexivity|]. split; [|split; [reflexivity|]].
  - intros j d Hj. exists (d_nb_usage d). rewrite with_nb_usage_same. split; [exact Hj | lia].
  - intros c' cu' Hcu'. exists (c_discounts cu').
    rewrite with_discounts_same. auto.
Qed.

Lemma framed_decrement s c s' j d' :
  framed s c s' -> md_discounts s' !! j = Some d' -> framed s c (decrement s' j d').
Proof.
  intros (Hb & Hlen & Hd & Hclen & Hc) Hj.
  split; [exact Hb|]. split; [rewrite decrement_size; exact Hlen|].
  split; [|split; [exact Hclen | exact Hc]].
  intros k d Hk. destruct (Hd k d Hk) as (n & Hn & Hle).
  destruct (decide (k = j)) as [->|Hne].
  - assert (d' = with_nb_usage d n) by congruence. subst d'.
    exists (n - 1). rewrite (decrement_lookup s' j _ Hj). simpl. split; [reflexivity | lia].
  - exists n. rewrite decrement_lookup_ne by exact Hne. auto.
Qed.

Lemma framed_removed s c s' cu' d :
  framed s c s' -> md_customers s' !! c = Some cu' -> framed s c (removed s' c cu' d).
Proof.
  intros (Hb & Hlen & Hd & Hclen & Hc) Hcu'.
  split; [exact Hb|]. split; [exact Hlen|]. split; [exact Hd|].
  split; [simpl; rewrite length_insert; exact Hclen|].
  intros c0 cu0 Hcu0. destruct (Hc c0 cu0 Hcu0) as (l & Hl & Hsub & Hother).
  destruct (decide (c0 = c)) as [->|Hne].
  - assert (cu' = with_discounts cu0 l) by congruence. subst cu'.
    exists (filter (fun x => ref_sat (other_id d) s' x = true) l).
    split; [rewrite (removed_lookup s' c _ d Hl); reflexivity|]. split; [|congruence].
    etransitivity; [apply sublist_filter | exact Hsub].
  - exists l. rewrite removed_lookup_ne by exact Hne. auto.
Qed.

Lemma use_discount_framed s c self r :
  o_customer self = Some c ->
  hoare (framed s c) (use_discount self r) (fun _ => framed s c) (framed s c).
Proof.
  intros Hc. apply use_discount_preserves.
  - intros s' j d _ Hj H. apply framed_decrement; assumption.
  - intros s' c' cu j d _ _ Hc' Hcu H. assert (c' = c) by congruence. subst c'.
    apply framed_removed; assumption.
Qed.

(** X3. A calculation for customer [c] leaves the catalog, the other customers
    and every field of a discount but its counter as they were; the counters
    do not grow and the customer's list only loses references. *)
Theorem calculate_total_price_frame dist now self s c :
  o_customer self = Some c ->
  framed s c (calculate_total_price dist now self s).2.
Proof.
  intros Hc. rewrite calculate_total_price_store.
  apply total_before_shipping_preserves.
  - intros r _. apply use_discount_framed, Hc.
  - apply framed_refl.
Qed.

(** ** The counter of a general discount *)


Lemma calculate_total_price_returns dist now self s total s' :
  total_before_shipping now self s = (Return total, s') ->
  exists price, calculate_total_price dist now self s = (Return price, s').
Proof.
  intros Hrun.
  destruct (total_before_shipping_customer now self s total s' Hrun)
    as (c & cu & Hc & _ & cu' & Hcu' & _).
  eexists. unfold calculate_total_price.
  rewrite (bind_Return _ _ _ _ _ Hrun).
  apply (add_shipping_run dist self c cu' total s' Hc Hcu').
Qed.

(** X4. One calculation decrements a valid general discount once for each time
    the customer holds it, whatever the order, and the customer holds it
    afterwards unless the counter passed through 0. *)
Theorem general_discount_usage dist now self s c cu lines i d :
  o_customer self = Some c -> md_customers s !! c = Some cu ->
  unique_ids s -> Forall (resolvable s) (c_discounts cu) ->
  o_books self = found_lines lines ->
  md_discounts s !! i = Some d ->
  valid now d = true -> truthy (d_author_specific d) = false ->
  let k := occurrences i (c_discounts cu) in
  exists price s',
    calculate_total_price dist now self s = (Return price, s') /\
    md_discounts s' !! i = Some (with_nb_usage d (d_nb_usage d - k)) /\
    (holds_ref c (Some i) s' <->
     Some i ∈ c_discounts cu /\ ~ (1 <= d_nb_usage d <= k)).
Proof.
  intros Hc Hcu Hu Hall Hbooks Hi Hvalid Hgen k.
  destruct (total_before_shipping_formula now self s c cu lines Hc Hcu Hall Hbooks)
    as (s' & Htotal).
  destruct (calculate_total_price_returns dist now self s _ s' Htotal) as (price & Hcalc).
  exists price, s'. split; [exact Hcalc|].
  assert (Hs' : s' = (total_before_shipping now self s).2)
    by (rewrite <- calculate_total_price_store with (dist := dist), Hcalc; reflexivity).
  clear Hcalc.
  set (asd := filter (fun r => ref_sat (author_scoped now) s r = true) (c_discounts cu)).
  set (vd := filter (fun r => ref_sat (general now) s r = true) (c_discounts cu)).
  assert (Hasd : Forall (resolvable s) asd) by (apply Forall_resolvable_filter, Hall).
  assert (Hvd : Forall (resolvable s) vd) by (apply Forall_resolvable_filter, Hall).
  destruct (price_lines_running self s c asd lines Hc Hasd 0%Q s
              (running_start s c cu Hcu Hall)) as (s1 & Hlines & Hrun1).
  assert (Ht : tracked c i d (Some i ∈ c_discounts cu) s).
  { split; [exact Hu|]. split; [exact Hi|]. split.
    - intros (cu' & Hcu' & Hin). assert (cu' = cu) by congruence. subst cu'. exact Hin.
    - intros Hin. exists cu. auto. }
  assert (Ht1 : tracked c i d (Some i ∈ c_discounts cu) s1).
  { pose proof (hoare_foldM (tracked c i d (Some i ∈ c_discounts cu))
                  (price_line self asd) (tracked c i d (Some i ∈ c_discounts cu))
                  (found_lines lines)) as H.
    assert (Hline : forall acc x, x ∈ found_lines lines ->
              hoare (tracked c i d (Some i ∈ c_discounts cu))
                    (price_line self asd acc x)
                    (fun _ => tracked c i d (Some i ∈ c_discounts cu))
                    (tracked c i d (Some i ∈ c_discounts cu))).
    { intros acc x _. apply price_line_preserves. intros r Hr.
      apply use_discount_tracked; [exact Hc|]. intros ->.
      apply list_elem_of_filter in Hr as [Hr _]. simpl in Hr. rewrite Hi in Hr.
      unfold author_scoped in Hr. rewrite Hgen, andb_false_r in Hr. discriminate. }
    specialize (H Hline 0%Q s Ht). rewrite Hlines in H. exact H. }
  destruct Hrun1 as (Hag1 & Hok1 & Hlen1).
  assert (Hvd1 : Forall (resolvable s1) vd).
  { eapply Forall_impl; [exact Hvd|]. intros r. apply resolvable_same_size, Hlen1. }
  destruct (apply_discounts_tracks self c i vd
              (lines_sum (factor (discounts_at s asd)) lines 0) s1 d _ Hc Hok1 Hvd1 Ht1)
    as (t2 & s2 & Hloop & _ & _ & Ht2 & _).
  assert (Hs2 : s' = s2).
  { rewrite Hs'. unfold total_before_shipping.
    rewrite author_specific_discounts_held, valid_discounts_held.
    rewrite (bind_Return _ _ _ _ _
               (held_refs_run (author_scoped now) self c cu s Hc Hcu Hall)).
    rewrite (bind_Return _ _ _ _ _ (held_refs_run (general now) self c cu s Hc Hcu Hall)).
    fold asd. fold vd. unfold price_lines.
    rewrite Hbooks, (bind_Return _ _ _ _ _ Hlines), Hloop. reflexivity. }
  subst s2.
  assert (Hocc : occurrences i vd = k).
  { apply occurrences_filter. simpl. rewrite Hi. unfold general.
    rewrite Hvalid, Hgen. reflexivity. }
  rewrite Hocc in Ht2. destruct Ht2 as (_ & Hi' & Hh). split; [exact Hi' | exact Hh].
Qed.

(** ** When a calculation raises *)

(** X6. An order without a customer cannot be priced: the calculation raises an
    attribute error and changes nothing. *)
Theorem calculate_total_price_no_customer dist now self s :
  o_customer self = None ->
  calculate_total_price dist now self s = (Raise AttributeError, s).
Proof.
  intros Hnone. unfold calculate_total_price, total_before_shipping,
    author_specific_discounts, customer_of.
  rewrite Hnone. reflexivity.
Qed.

Lemma filterM_test_ref_none q s l :
  Forall (fun r => r = None \/ resolvable s r) l -> None ∈ l ->
  filterM (test_ref q) l s = (Raise AttributeError, s).
Proof.
  induction 1 as [|r l Hr _ IH]; intros Hin; [inversion Hin|].
  simpl. destruct Hr as [->|[d Hd]].
  - reflexivity.
  - rewrite (bind_Return _ _ _ _ _ (test_ref_resolves q s r d Hd)).
    apply bind_Raise, IH.
    inversion Hin; subst; [|assumption].
    destruct Hd as (j & Hj & _). discriminate.
Qed.

Lemma total_before_shipping_none_reference now self s c cu :
  o_customer self = Some c -> md_customers s !! c = Some cu ->
  Forall (fun r => r = None \/ resolvable s r) (c_discounts cu) ->
  None ∈ c_discounts cu ->
  total_before_shipping now self s = (Raise AttributeError, s).
Proof.
  intros Hc Hcu Hall Hin. unfold total_before_shipping.
  rewrite author_specific_discounts_held.
  apply bind_Raise. unfold held_refs, customer_of. rewrite Hc. simpl.
  rewrite (bind_Return _ _ _ c s) by reflexivity.
  rewrite (bind_Return _ _ _ _ _ (get_customer_Some c cu s Hcu)).
  apply filterM_test_ref_none; assumption.
Qed.

(** X7. A customer who holds [None] among its references (what a rule run with
    an unknown id leaves) cannot be priced: the calculation raises an
    attribute error before it changes anything. *)
Theorem calculate_total_price_none_reference dist now self s c cu :
  o_customer self = Some c -> md_customers s !! c = Some cu ->
  Forall (fun r => r = None \/ resolvable s r) (c_discounts cu) ->
  None ∈ c_discounts cu ->
  calculate_total_price dist now self s = (Raise AttributeError, s).
Proof.
  intros Hc Hcu Hall Hin. unfold calculate_total_price.
  apply bind_Raise.
  apply (total_before_shipping_none_reference now self s c cu); assumption.
Qed.

Lemma foldM_app {A B} (f : A -> B -> M A) l1 l2 acc s :
  foldM f (l1 ++ l2) acc s = bind (foldM f l1 acc) (foldM f l2) s.
Proof.
  revert acc s. induction l1 as [|x l1 IH]; intros acc s; simpl; [reflexivity|].
  unfold bind in *. destruct (f acc x s) as [[a|e] s1]; [apply IH | reflexivity].
Qed.

Lemma price_line_missing_book self s c s1 asd acc q :
  running s c s1 -> Forall (resolvable s) asd ->
  price_line self asd acc (None, q) s1 = (Raise AttributeError, s1).
Proof.
  intros Hrun Hall. unfold price_line. simpl fst. simpl snd.
  destruct Hall as [|r asd [d Hd] _].
  - reflexivity.
  - pose proof Hd as (j & -> & Hj).
    destruct (running_lookup s c s1 j d Hrun Hj) as [n Hn].
    apply bind_Raise. simpl next_or_none. apply bind_Raise.
    rewrite (bind_Return _ _ _ _ _ (deref_Some j _ s1 Hn)). reflexivity.
Qed.

(** X8. A line whose book is [None] (a title that was not found) makes the
    calculation raise an attribute error; the discounts used by the loop on
    the lines before it stay used. *)
Theorem calculate_total_price_missing_book dist now self s c cu before q rest :
  o_customer self = Some c -> md_customers s !! c = Some cu ->
  Forall (resolvable s) (c_discounts cu) ->
  o_books self = found_lines before ++ (None, q) :: rest ->
  exists asd total s1,
    author_specific_discounts now self s = (Return asd, s) /\
    foldM (price_line self asd) (found_lines before) 0%Q s = (Return total, s1) /\
    calculate_total_price dist now self s = (Raise AttributeError, s1).
Proof.
  intros Hc Hcu Hall Hbooks.
  set (asd := filter (fun r => ref_sat (author_scoped now) s r = true) (c_discounts cu)).
  assert (Hasd : Forall (resolvable s) asd) by (apply Forall_resolvable_filter, Hall).
  destruct (price_lines_running self s c asd before Hc Hasd 0%Q s
              (running_start s c cu Hcu Hall)) as (s1 & Hlines & Hrun1).
  exists asd, (lines_sum (factor (discounts_at s asd)) before 0), s1.
  split; [|split].
  - rewrite author_specific_discounts_held.
    apply (held_refs_run (author_scoped now) self c cu s Hc Hcu Hall).
  - exact Hlines.
  - unfold calculate_total_price. apply bind_Raise. unfold total_before_shipping.
    rewrite author_specific_discounts_held, valid_discounts_held.
    rewrite (bind_Return _ _ _ _ _
               (held_refs_run (author_scoped now) self c cu s Hc Hcu Hall)).
    rewrite (bind_Return _ _ _ _ _ (held_refs_run (general now) self c cu s Hc Hcu Hall)).
    apply bind_Raise. fold asd. unfold price_lines. rewrite Hbooks, foldM_app.
    rewrite (bind_Return _ _ _ _ _ Hlines). simpl foldM.
    apply bind_Raise. apply (price_line_missing_book self s c s1 asd _ q Hrun1 Hasd).
Qed.

(** ** The assignment rules, customer by customer *)

Lemma map_lookup {A B} (f : A -> B) (l : list A) (i : nat) :
  map f l !! i = f <$> l !! i.
Proof.
  revert i. induction l as [|x l IH]; intros [|i]; simpl; try reflexivity. apply IH.
Qed.

Lemma assigned_lookup p r s c cu :
  md_customers s !! c = Some cu ->
  md_customers (with_md_customers s (map (assign p r) (md_customers s))) !! c =
  Some (assign p r cu).
Proof. intros Hcu. simpl. rewrite map_lookup, Hcu. reflexivity. Qed.

(** X10. The tenure rule appends the selected reference to the customers whose
    account is at least 365 days old and leaves the other customers as they
    are. *)
Theorem discount_one_year_customers_effect now id s c cu :
  md_customers s !! c = Some cu ->
  let s' := (discount_one_year_customers now id s).2 in
  let days := PyDate.days_between (date_of now) (c_signup_date cu) in
  (365 <= days ->
   md_customers s' !! c =
   Some (with_discounts cu (c_discounts cu ++ [registered s id]))) /\
  (days < 365 -> md_customers s' !! c = Some cu).
Proof.
  intros Hcu s' days. subst s'. rewrite discount_one_year_customers_run. simpl snd.
  rewrite (assigned_lookup _ _ s c cu Hcu). unfold assign, one_year_old. fold days.
  split; intros Hd.
  - apply Z.leb_le in Hd. rewrite Hd. reflexivity.
  - apply Z.leb_gt in Hd. rewrite Hd. reflexivity.
Qed.

Lemma is_black_friday_spec today :
  is_black_friday today = true <-> month today = 11 /\ day today = 24.
Proof.
  unfold is_black_friday, PyDate.eqb. simpl.
  rewrite !andb_true_iff, !Z.eqb_eq. tauto.
Qed.

(** X11. The seasonal rule does nothing on a day that is not 24 November, and on
    24 November appends the selected reference to every customer. *)
Theorem discount_black_friday_effect now id s :
  (month (date_of now) <> 11 \/ day (date_of now) <> 24 ->
   discount_black_friday now id s = (Return tt, s)) /\
  (month (date_of now) = 11 -> day (date_of now) = 24 ->
   forall c cu, md_customers s !! c = Some cu ->
     md_customers (discount_black_friday now id s).2 !! c =
     Some (with_discounts cu (c_discounts cu ++ [registered s id]))).
Proof.
  rewrite discount_black_friday_run. split.
  - intros Hday. destruct (is_black_friday (date_of now)) eqn:Hbf; [|reflexivity].
    apply is_black_friday_spec in Hbf. tauto.
  - intros Hm Hd c cu Hcu.
    rewrite (proj2 (is_black_friday_spec (date_of now)) (conj Hm Hd)). simpl snd.
    rewrite (assigned_lookup _ _ s c cu Hcu). reflexivity.
Qed.

Lemma lower_ascii_idempotent c : lower_ascii (lower_ascii c) = lower_ascii c.
Proof. destruct c as [[] [] [] [] [] [] [] []]; reflexivity. Qed.

Lemma lower_idempotent s : lower (lower s) = lower s.
Proof.
  induction s as [|c s IH]; [reflexivity|].
  simpl. rewrite lower_ascii_idempotent, IH. reflexivity.
Qed.

(** X12. The location rule compares the stored location with the lower-cased
    target.  For ASCII locations, a customer whose location differs from the
    target even ignoring case never receives the discount, and a customer
    whose location is stored in lower case receives it whenever the two are
    equal ignoring case. *)
Theorem discount_location_effect id location s c cu :
  isascii location = true -> isascii (c_location cu) = true ->
  md_customers s !! c = Some cu ->
  let s' := (discount_location id location s).2 in
  (lower (c_location cu) <> lower location -> md_customers s' !! c = Some cu) /\
  (lower (c_location cu) = c_location cu ->
   lower (c_location cu) = lower location ->
   md_customers s' !! c =
   Some (with_discounts cu (c_discounts cu ++ [registered s id]))).
Proof.
  intros _ _ Hcu s'. subst s'. rewrite discount_location_run. simpl snd.
  rewrite (assigned_lookup _ _ s c cu Hcu). unfold assign. split.
  - intros Hne. destruct (String.eqb (c_location cu) (lower location)) eqn:Heq;
      [|reflexivity].
    apply String.eqb_eq in Heq. destruct Hne. rewrite Heq. apply lower_idempotent.
  - intros Hlow Heq. rewrite <- Hlow, Heq, String.eqb_refl. reflexivity.
Qed.

(** What a rule may do to the store: append references to customers. *)
Definition appended (s s' : MasterData) : Prop :=
  md_books s' = md_books s /\ md_discounts s' = md_discounts s /\
  Forall2 (fun cu cu' => exists l, cu' = with_discounts cu (c_discounts cu ++ l))
          (md_customers s) (md_customers s').

Lemma assign_appended p r s :
  appended s (with_md_customers s (map (assign p r) (md_customers s))).
Proof.
  split; [reflexivity|]. split; [reflexivity|]. simpl.
  induction (md_customers s) as [|cu l IH]; constructor; [|exact IH].
  rewrite assign_as_append. eexists. reflexivity.
Qed.

Lemma appended_refl s : appended s s.
Proof.
  split; [reflexivity|]. split; [reflexivity|].
  induction (md_customers s) as [|cu l IH]; constructor; [|exact IH].
  exists []. rewrite app_nil_r, with_discounts_same. reflexivity.
Qed.

(** X13. The tenure, seasonal and location rules never raise, never touch the
    catalog or the registry, and never remove or reorder what a customer
    holds: each customer's list only grows at its end. *)
Theorem rules_only_append now id location s :
  (discount_one_year_customers now id s).1 = Return tt /\
  appended s (discount_one_year_customers now id s).2 /\
  (discount_black_friday now id s).1 = Return tt /\
  appended s (discount_black_friday now id s).2 /\
  (discount_location id location s).1 = Return tt /\
  appended s (discount_location id location s).2.
Proof.
  rewrite discount_one_year_customers_run, discount_black_friday_run,
    discount_location_run. simpl.
  repeat split; try apply assign_appended.
  - destruct (is_black_friday (date_of now)); reflexivity.
  - destruct (is_black_friday (date_of now)); [apply assign_appended|].
    apply appended_refl.
  - destruct (is_black_friday (date_of now)); [apply assign_appended|].
    apply appended_refl.
Qed.

(** X14. The rules do not look at what a customer already holds: run twice, the
    tenure rule gives a customer of a year the same reference twice. *)
Theorem discount_one_year_customers_twice now id s c cu :
  md_customers s !! c = Some cu ->
  365 <= PyDate.days_between (date_of now) (c_signup_date cu) ->
  exists s2,
    bind (discount_one_year_customers now id)
         (fun _ => discount_one_year_customers now id) s = (Return tt, s2) /\
    md_customers s2 !! c =
    Some (with_discounts cu (c_discounts cu ++ [registered s id; registered s id])).
Proof.
  intros Hcu Hdays. eexists.
  rewrite (bind_Return _ _ _ _ _ (discount_one_year_customers_run now id s)).
  rewrite discount_one_year_customers_run. split; [reflexivity|].
  set (s1 := with_md_customers s _).
  assert (Hcu1 : md_customers s1 !! c =
                 Some (with_discounts cu (c_discounts cu ++ [registered s id]))).
  { subst s1. rewrite (assigned_lookup _ _ s c cu Hcu). unfold assign, one_year_old.
    apply Z.leb_le in Hdays. rewrite Hdays. reflexivity. }
  rewrite (assigned_lookup _ _ s1 c _ Hcu1). unfold assign, one_year_old. simpl.
  apply Z.leb_le in Hdays. rewrite Hdays. unfold with_discounts. simpl.
  rewrite <- app_assoc. reflexivity.
Qed.

(** ** The author-scope rule *)

Lemma registered_Some s id i :
  registered s id = Some i ->
  exists d, md_discounts s !! i = Some d /\ d_id d = id /\
            forall j dj, md_discounts s !! j = Some dj -> (j < i)%nat -> d_id dj <> id.
Proof.
  unfold registered. intros H.
  destruct (list_find _ (md_discounts s)) as [[i' d]|] eqn:Hf; [|discriminate].
  injection H as ->. apply list_find_Some in Hf as (Hi & Hid & Hfirst).
  exists d. auto.
Qed.

Lemma registered_rescoped s id i d a :
  registered s id = Some i -> md_discounts s !! i = Some d ->
  registered (with_md_discounts s (<[i := with_author_specific d a]> (md_discounts s))) id
  = Some i.
Proof.
  intros Hreg Hi. destruct (registered_Some s id i Hreg) as (d' & Hi' & Hid & Hfirst).
  assert (d' = d) by congruence. subst d'.
  unfold registered. simpl.
  assert (Hf : list_find (fun x => d_id x = id)
                         (<[i := with_author_specific d a]> (md_discounts s))
               = Some (i, with_author_specific d a)).
  { apply list_find_Some. split; [|split].
    - apply list_lookup_insert_eq. eapply lookup_lt_Some, Hi.
    - exact Hid.
    - intros j y Hj Hlt. rewrite list_lookup_insert_ne in Hj by lia.
      apply (Hfirst j y Hj Hlt). }
  rewrite Hf. reflexivity.
Qed.

Lemma discount_specific_author_run id author s i d :
  registered s id = Some i -> md_discounts s !! i = Some d ->
  discount_specific_author id author s =
  (Return tt,
   with_md_customers
     (with_md_discounts s (<[i := with_author_specific d (Some author)]> (md_discounts s)))
     (map (assign (fun _ => true) (Some i)) (md_customers s))).
Proof.
  intros Hreg Hi. unfold discount_specific_author.
  rewrite (bind_Return _ _ _ _ _ (select_discount_run id s)), Hreg.
  assert (Hset : set_author_specific (Some i) (Some author) s =
                 (Return tt,
                  with_md_discounts s
                    (<[i := with_author_specific d (Some author)]> (md_discounts s)))).
  { unfold set_author_specific.
    rewrite (bind_Return _ _ _ _ _ (deref_Some i d s Hi)). reflexivity. }
  rewrite (bind_Return _ _ _ _ _ Hset).
  set (s1 := with_md_discounts s _).
  rewrite (bind_Return _ _ _ s1 s1) by reflexivity.
  apply (assign_all (fun _ => true) (Some i) s1).
Qed.

(** X15. For an id of the registry the author-scope rule returns normally: the
    first discount with that id is scoped to the author, nothing else of it
    changes, no other discount changes, and every customer receives a
    reference to it.  Customers who already held it hold it scoped too,
    since the discount is shared. *)
Theorem discount_specific_author_effect id author s i :
  select_discount id s = (Return (Some i), s) ->
  exists d s',
    md_discounts s !! i = Some d /\ d_id d = id /\
    discount_specific_author id author s = (Return tt, s') /\
    md_discounts s' = <[i := with_author_specific d (Some author)]> (md_discounts s) /\
    md_books s' = md_books s /\
    forall c cu, md_customers s !! c = Some cu ->
                 md_customers s' !! c =
                 Some (with_discounts cu (c_discounts cu ++ [Some i])).
Proof.
  rewrite select_discount_run. intros Hsel. injection Hsel as Hreg.
  destruct (registered_Some s id i Hreg) as (d & Hi & Hid & _).
  exists d. eexists. split; [exact Hi|]. split; [exact Hid|].
  split; [apply (discount_specific_author_run id author s i d Hreg Hi)|].
  split; [reflexivity|]. split; [reflexivity|].
  intros c cu Hcu. simpl. rewrite map_lookup, Hcu. reflexivity.
Qed.

(** X16. The scope belongs to the discount, not to the assignment: a second call
    with another author re-scopes the discount for every customer, and each
    customer then holds two references to it. *)
Theorem discount_specific_author_twice id author1 author2 s i :
  select_discount id s = (Return (Some i), s) ->
  exists d s',
    md_discounts s !! i = Some d /\
    bind (discount_specific_author id author1)
         (fun _ => discount_specific_author id author2) s = (Return tt, s') /\
    md_discounts s' !! i = Some (with_author_specific d (Some author2)) /\
    forall c cu, md_customers s !! c = Some cu ->
                 md_customers s' !! c =
                 Some (with_discounts cu (c_discounts cu ++ [Some i; Some i])).
Proof.
  rewrite select_discount_run. intros Hsel. injection Hsel as Hreg.
  destruct (registered_Some s id i Hreg) as (d & Hi & Hid & _).
  exists d. eexists. split; [exact Hi|].
  rewrite (bind_Return _ _ _ _ _ (discount_specific_author_run id author1 s i d Hreg Hi)).
  set (s1 := with_md_customers _ _).
  assert (Hi1 : md_discounts s1 !! i = Some (with_author_specific d (Some author1))).
  { subst s1. simpl. apply list_lookup_insert_eq. eapply lookup_lt_Some, Hi. }
  assert (Hreg1 : registered s1 id = Some i)
    by (apply (registered_rescoped s id i d (Some author1) Hreg Hi)).
  split; [apply (discount_specific_author_run id author2 s1 i _ Hreg1 Hi1)|].
  split.
  - simpl. rewrite list_insert_insert_eq.
    apply list_lookup_insert_eq. eapply lookup_lt_Some, Hi.
  - intros c cu Hcu. simpl. rewrite !map_lookup, Hcu. simpl.
    unfold assign, with_discounts. simpl. rewrite <- app_assoc. reflexivity.
Qed.

(** ** The lookups of the store *)

(** X18. [select_discount] returns the first discount of the registry with the
    id, or [None] when no discount has it; the store is not changed. *)
Theorem select_discount_first_match id s :
  exists r,
    select_discount id s = (Return r, s) /\
    match r with
    | Some i =>
        exists d, md_discounts s !! i = Some d /\ d_id d = id /\
                  forall j dj, md_discounts s !! j = Some dj -> (j < i)%nat ->
                               d_id dj <> id
    | None => Forall (fun d => d_id d <> id) (md_discounts s)
    end.
Proof.
  exists (registered s id). split; [reflexivity|].
  destruct (registered s id) as [i|] eqn:Hreg.
  - apply registered_Some, Hreg.
  - unfold registered in Hreg.
    destruct (list_find _ (md_discounts s)) eqn:Hf; [discriminate|].
    apply list_find_None in Hf. exact Hf.
Qed.

(** X19. [select_customer] returns the first customer with the username, or
    [None] when there is none. *)
Theorem select_customer_first_match username s :
  exists r,
    select_customer username s = (Return r, s) /\
    match r with
    | Some c =>
        exists cu, md_customers s !! c = Some cu /\ c_username cu = username /\
                   forall j cj, md_customers s !! j = Some cj -> (j < c)%nat ->
                                c_username cj <> username
    | None => Forall (fun cu => c_username cu <> username) (md_customers s)
    end.
Proof.
  exists (found_customer s username). split; [reflexivity|].
  unfold found_customer.
  destruct (list_find _ (md_customers s)) as [[c cu]|] eqn:Hf; simpl.
  - apply list_find_Some in Hf as (Hc & Hu & Hfirst). exists cu. auto.
  - apply list_find_None in Hf. exact Hf.
Qed.

(** X20. [select_book] returns the first book of the catalog with the title, or
    [None] when there is none. *)
Theorem select_book_first_match title s :
  exists r,
    select_book title s = (Return r, s) /\
    match r with
    | Some b =>
        exists i, md_books s !! i = Some b /\ b_title b = title /\
                  forall j bj, md_books s !! j = Some bj -> (j < i)%nat ->
                               b_title bj <> title
    | None => Forall (fun b => b_title b <> title) (md_books s)
    end.
Proof.
  exists (found_book s title). split; [reflexivity|].
  unfold found_book.
  destruct (list_find _ (md_books s)) as [[i b]|] eqn:Hf; simpl.
  - apply list_find_Some in Hf as (Hi & Ht & Hfirst). exists i. auto.
  - apply list_find_None in Hf. exact Hf.
Qed.

Lemma positions_spec {A} (p : A -> bool) l : forall i c,
  c ∈ positions p i l <->
  (i <= c)%nat /\ exists x, l !! (c - i)%nat = Some x /\ p x = true.
Proof.
  induction l as [|x l IH]; intros i c; simpl.
  - split; [intros H; inversion H | intros (_ & y & Hy & _); discriminate].
  - assert (Htail : c ∈ positions p (S i) l <->
                    (i < c)%nat /\ exists y, (x :: l) !! (c - i)%nat = Some y /\ p y = true).
    { rewrite IH. split.
      - intros (Hle & y & Hy & Hp). split; [lia|]. exists y. split; [|exact Hp].
        replace (c - i)%nat with (S (c - S i)) by lia. exact Hy.
      - intros (Hlt & y & Hy & Hp). split; [lia|]. exists y. split; [|exact Hp].
        replace (c - i)%nat with (S (c - S i)) in Hy by lia. exact Hy. }
    destruct (p x) eqn:Hx.
    + rewrite elem_of_cons, Htail. split.
      * intros [->|(Hlt & H)]; [|split; [lia | exact H]].
        split; [lia|]. exists x. rewrite Nat.sub_diag. auto.
      * intros (Hle & y & Hy & Hp).
        destruct (decide (c = i)) as [->|Hne]; [left; reflexivity|].
        right. split; [lia|]. exists y. auto.
    + rewrite Htail. split.
      * intros (Hlt & H). split; [lia | exact H].
      * intros (Hle & y & Hy & Hp). split; [|exists y; auto].
        destruct (decide (c = i)) as [->|Hne]; [|lia].
        rewrite Nat.sub_diag in Hy. simpl in Hy. congruence.
Qed.

Lemma positions_increasing {A} (p : A -> bool) l : forall i,
  StronglySorted lt (positions p i l).
Proof.
  induction l as [|x l IH]; intros i; simpl; [constructor|].
  destruct (p x); [|apply IH].
  constructor; [apply IH|].
  apply Forall_forall. intros c Hc. apply positions_spec in Hc. lia.
Qed.

(** X21. [select_customers] returns exactly the customers whose location is the
    given string, character for character, each once and in the order of the
    store. *)
Theorem select_customers_exact location s :
  exists l,
    select_customers location s = (Return l, s) /\
    StronglySorted lt l /\
    forall c, c ∈ l <->
              exists cu, md_customers s !! c = Some cu /\ c_location cu = location.
Proof.
  eexists. split; [reflexivity|]. split; [apply positions_increasing|].
  intros c. rewrite positions_spec, Nat.sub_0_r. split.
  - intros (_ & cu & Hcu & Heq). apply String.eqb_eq in Heq. exists cu. auto.
  - intros (cu & Hcu & Heq). split; [lia|]. exists cu. split; [exact Hcu|].
    apply String.eqb_eq, Heq.
Qed.

(** [Store.select_discounts]: the discounts whose [valid] property equals
    the flag. *)
Definition select_discounts (now : datetime) (flag : bool) : M (list ref) :=
  let* s := get in
  ret (map Some (positions (fun d => Bool.eqb (valid now d) flag) 0 (md_discounts s))).

(** X22. [select_discounts(True)] and [select_discounts(False)] split the
    registry: every discount is in exactly one of the two lists, the valid
    ones in the first. *)
Theorem select_discounts_partition now s :
  exists valid_ones invalid_ones,
    select_discounts now true s = (Return valid_ones, s) /\
    select_discounts now false s = (Return invalid_ones, s) /\
    forall j d, md_discounts s !! j = Some d ->
                (Some j ∈ valid_ones <-> valid now d = true) /\
                (Some j ∈ invalid_ones <-> valid now d = false).
Proof.
  eexists. eexists. split; [reflexivity|]. split; [reflexivity|].
  intros j d Hj.
  assert (Hin : forall flag,
             Some j ∈ map Some (positions (fun d => Bool.eqb (valid now d) flag) 0
                                          (md_discounts s))
             <-> valid now d = flag).
  { intros flag. rewrite list_elem_of_In, in_map_iff. split.
    - intros (k & Hk & Hpos). injection Hk as ->.
      apply list_elem_of_In, positions_spec in Hpos as (_ & x & Hx & Heq).
      rewrite Nat.sub_0_r in Hx. assert (x = d) by congruence. subst x.
      apply Bool.eqb_prop, Heq.
    - intros Hv. exists j. split; [reflexivity|].
      apply list_elem_of_In, positions_spec. split; [lia|].
      exists d. rewrite Nat.sub_0_r. split; [exact Hj|].
      rewrite Hv. apply Bool.eqb_reflx. }
  split; apply Hin.
Qed.

(** ** Placing orders *)

(** X23. Placing an order stores the selected lines, in their order, as the
    customer's current order, with the customer as its owner; the customer's
    discounts, the other customers, the catalog and the registry are as
    before. *)
Theorem place_order_effect c cu lines s :
  md_customers s !! c = Some cu ->
  exists s',
    place_order c lines s = (Return tt, s') /\
    md_customers s' !! c = Some (with_order cu (Some (mkOrder lines (Some c)))) /\
    (forall c', c' <> c -> md_customers s' !! c' = md_customers s !! c') /\
    md_books s' = md_books s /\ md_discounts s' = md_discounts s.
Proof.
  intros Hcu. eexists. split; [apply (place_order_run c cu lines s Hcu)|].
  split; [|split; [|split; reflexivity]].
  - simpl. apply list_lookup_insert_eq. eapply lookup_lt_Some, Hcu.
  - intros c' Hne. simpl. apply list_lookup_insert_ne. congruence.
Qed.

(** X24. A customer has one current order: placing a second order leaves the
    store exactly as placing the second order alone would. *)
Theorem place_order_replaces c cu lines1 lines2 s :
  md_customers s !! c = Some cu ->
  bind (place_order c lines1) (fun _ => place_order c lines2) s =
  place_order c lines2 s.
Proof.
  intros Hcu.
  rewrite (bind_Return _ _ _ _ _ (place_order_run c cu lines1 s Hcu)).
  set (s1 := with_md_customers s _).
  assert (Hcu1 : md_customers s1 !! c =
                 Some (with_order cu (Some (mkOrder lines1 (Some c)))))
    by (subst s1; simpl; apply list_lookup_insert_eq; eapply lookup_lt_Some, Hcu).
  rewrite (place_order_run c _ lines2 s1 Hcu1), (place_order_run c cu lines2 s Hcu).
  subst s1. simpl. rewrite list_insert_insert_eq. reflexivity.
Qed.

(** ** Shipping *)

Section Geocoding.

(** [Shipping.get_coordinates] queries a geocoder and [geodesic] measures
    the distance between two coordinates: both are external. *)
Variable get_coordinates : string -> option (Q * Q).
Variable geodesic : Q * Q -> Q * Q -> Q.

Definition calculate_distance (capital1 capital2 : string) : option Q :=
  let coordinates1 := get_coordinates capital1 in
  let coordinates2 := get_coordinates capital2 in
  match coordinates1, coordinates2 with
  | Some c1, Some c2 => Some (geodesic c1 c2)
  | _, _ => None
  end.

(** X9. When the geocoder does not know the store's place or the customer's,
    shipping is free: the price is the rounded running total, below and
    above the threshold alike. *)
Theorem unknown_place_ships_free now self s c cu total s' :
  o_customer self = Some c -> md_customers s !! c = Some cu ->
  get_coordinates "paris" = None \/ get_coordinates (c_location cu) = None ->
  total_before_shipping now self s = (Return total, s') ->
  calculate_total_price calculate_distance now self s =
  (Return (round2 (total + 0)), s').
Proof.
  intros Hc Hcu Hnone Hrun.
  destruct (total_before_shipping_customer now self s total s' Hrun)
    as (c' & cu0 & Hc' & Hcu0 & cu' & Hcu' & Hloc).
  assert (c' = c) by congruence. subst c'.
  assert (cu0 = cu) by congruence. subst cu0.
  unfold calculate_total_price. rewrite (bind_Return _ _ _ _ _ Hrun).
  rewrite (add_shipping_run calculate_distance self c cu' total s' Hc Hcu'), Hloc.
  assert (Hfree : shipping_cost calculate_distance "paris" (c_location cu) = 0%Q).
  { unfold shipping_cost, calculate_distance.
    destruct Hnone as [-> | ->]; [reflexivity|].
    destruct (get_coordinates "paris"); reflexivity. }
  rewrite Hfree. destruct (Qltb 50 total); reflexivity.
Qed.

End Geocoding.

(** ** Discounts outside their window *)

(** X5. When none of the customer's discounts is valid at the time of the
    calculation, the price is that of the plain lines and the store is left
    as it was: nothing is consumed. *)
Theorem no_valid_discount_plain_price dist now self s c cu lines :
  o_customer self = Some c -> md_customers s !! c = Some cu ->
  Forall (fun r => exists d, resolves s r d /\ valid now d = false) (c_discounts cu) ->
  o_books self = found_lines lines ->
  let total := lines_sum (fun _ => 1%Q) lines 0 in
  calculate_total_price dist now self s =
  (Return (round2 (total + (if Qltb 50 total then 0
                            else shipping_cost dist "paris" (c_location cu)))%Q), s).
Proof.
  intros Hc Hcu Hinv Hbooks total.
  assert (Hall : Forall (resolvable s) (c_discounts cu)).
  { eapply Forall_impl; [exact Hinv|]. intros r (d & Hd & _). exists d. exact Hd. }
  assert (Hnone : forall q, filter (fun r => ref_sat (fun d => valid now d && q d) s r = true)
                                   (c_discounts cu) = []).
  { intros q. induction Hinv as [|r l (d & Hd & Hv) _ IH]; [reflexivity|].
    rewrite filter_cons, decide_False; [apply IH; inversion Hall; assumption|].
    rewrite (resolves_ref_sat _ s r d Hd), Hv. discriminate. }
  assert (Hrun : total_before_shipping now self s = (Return total, s)).
  { unfold total_before_shipping.
    rewrite author_specific_discounts_held, valid_discounts_held.
    rewrite (bind_Return _ _ _ _ _
               (held_refs_run (author_scoped now) self c cu s Hc Hcu Hall)).
    rewrite (bind_Return _ _ _ _ _ (held_refs_run (general now) self c cu s Hc Hcu Hall)).
    unfold author_scoped, general.
    rewrite (Hnone (fun d => truthy (d_author_specific d))).
    rewrite (Hnone (fun d => negb (truthy (d_author_specific d)))).
    unfold price_lines. rewrite Hbooks.
    rewrite (bind_Return _ _ _ _ _ (foldM_price_line_plain self lines 0%Q s)).
    reflexivity. }
  unfold calculate_total_price. rewrite (bind_Return _ _ _ _ _ Hrun).
  apply (add_shipping_run dist self c cu total s Hc Hcu).
Qed.

(** ** A rule with an unknown id, then a calculation *)

(** X17. After the tenure rule ran with an id that no discount carries, the
    order of a customer of a year can no longer be priced: the calculation
    raises an attribute error and leaves the store as the rule left it. *)
Theorem unknown_id_rule_breaks_pricing dist now now' id self s c cu :
  Forall (fun d => d_id d <> id) (md_discounts s) ->
  md_customers s !! c = Some cu ->
  365 <= PyDate.days_between (date_of now) (c_signup_date cu) ->
  Forall (fun r => r = None \/ resolvable s r) (c_discounts cu) ->
  o_customer self = Some c ->
  let s1 := (discount_one_year_customers now id s).2 in
  calculate_total_price dist now' self s1 = (Raise AttributeError, s1).
Proof.
  intros Hid Hcu Hdays Hall Hc s1.
  assert (Hcu1 : md_customers s1 !! c =
                 Some (with_discounts cu (c_discounts cu ++ [None]))).
  { subst s1. rewrite discount_one_year_customers_run. simpl snd.
    rewrite (assigned_lookup _ _ s c cu Hcu), (registered_unknown s id Hid).
    unfold assign, one_year_old. apply Z.leb_le in Hdays. rewrite Hdays. reflexivity. }
  unfold calculate_total_price. apply bind_Raise.
  apply (total_before_shipping_none_reference now' self s1 c _ Hc Hcu1).
  - simpl. apply Forall_app. split; [|repeat constructor; left; reflexivity].
    eapply Forall_impl; [exact Hall|]. intros r [->|Hr]; [left; reflexivity|].
    right. apply (resolvable_same_size s s1 r); [|exact Hr].
    subst s1. rewrite discount_one_year_customers_run. reflexivity.
  - simpl. apply elem_of_app. right. left.
Qed.

(** ** Bounds on the running total *)

Definition rate_ok (d : Discount) : Prop := (0 <= d_amount d <= 1)%Q.

Definition line_ok (line : Book * Z) : Prop := (0 <= b_price line.1)%Q /\ 0 <= line.2.

Lemma Forall_list_filter {A} (P : A -> Prop) (q : A -> bool) l :
  Forall P l -> Forall P (List.filter q l).
Proof.
  rewrite !Forall_forall. intros H x Hx. apply H.
  apply list_elem_of_In. apply list_elem_of_In, filter_In in Hx. tauto.
Qed.

Lemma factor_bounds asd b : Forall rate_ok asd -> (0 <= factor asd b <= 1)%Q.
Proof.
  intros Hall. unfold factor.
  destruct (List.find _ asd) as [d|] eqn:Hf; [|lra].
  apply find_some in Hf as [Hin _].
  rewrite Forall_forall in Hall. specialize (Hall d (proj2 (list_elem_of_In _ _) Hin)).
  unfold rate_ok in Hall. lra.
Qed.

Lemma inject_Z_nonneg z : 0 <= z -> (0 <= inject_Z z)%Q.
Proof. intros Hz. unfold Qle. simpl. lia. Qed.

Lemma lines_sum_bounds (f : Book -> Q) lines :
  (forall b, (0 <= f b <= 1)%Q) -> Forall line_ok lines ->
  forall acc1 acc2, (0 <= acc1 <= acc2)%Q ->
                    (0 <= lines_sum f lines acc1 <= lines_sum (fun _ => 1%Q) lines acc2)%Q.
Proof.
  intros Hf. induction 1 as [|line lines [Hp Hq] _ IH]; intros acc1 acc2 Hacc.
  - exact Hacc.
  - rewrite !lines_sum_cons. apply IH.
    pose proof (Hf line.1) as Hfb. apply inject_Z_nonneg in Hq.
    assert (Hx : (0 <= b_price line.1 * inject_Z line.2)%Q)
      by (apply Qmult_le_0_compat; assumption).
    assert (H1 : (0 <= b_price line.1 * inject_Z line.2 * f line.1)%Q)
      by (apply Qmult_le_0_compat; [exact Hx | lra]).
    assert (H2 : (0 <= b_price line.1 * inject_Z line.2 * (1 - f line.1))%Q)
      by (apply Qmult_le_0_compat; [exact Hx | lra]).
    lra.
Qed.

Lemma apply_rates_bounds vd :
  Forall rate_ok vd ->
  forall t bound, (0 <= t <= bound)%Q ->
                  (0 <= fold_left (fun t d => (t * (1 - d_amount d))%Q) vd t <= bound)%Q.
Proof.
  induction 1 as [|d vd Hd _ IH]; intros t bound Ht; [exact Ht|].
  simpl. apply IH. unfold rate_ok in Hd.
  assert (H1 : (0 <= t * d_amount d)%Q) by (apply Qmult_le_0_compat; lra).
  assert (H2 : (0 <= t * (1 - d_amount d))%Q) by (apply Qmult_le_0_compat; lra).
  lra.
Qed.

(** X2. With rates between 0 and 1, prices and quantities that are not
    negative, the running total before shipping is never negative and never
    above the plain sum of the lines: discounts do not raise a price. *)
Theorem discounts_never_raise_the_total now self s c cu lines :
  o_customer self = Some c -> md_customers s !! c = Some cu ->
  Forall (resolvable s) (c_discounts cu) -> o_books self = found_lines lines ->
  Forall rate_ok (discounts_at s (c_discounts cu)) -> Forall line_ok lines ->
  exists total s',
    total_before_shipping now self s = (Return total, s') /\
    (0 <= total <= lines_sum (fun _ => 1%Q) lines 0)%Q.
Proof.
  intros Hc Hcu Hall Hbooks Hrates Hlines.
  destruct (total_before_shipping_formula now self s c cu lines Hc Hcu Hall Hbooks)
    as (s' & Hrun).
  eexists. exists s'. split; [exact Hrun|].
  unfold expected_total. apply apply_rates_bounds.
  - apply Forall_list_filter, Hrates.
  - apply lines_sum_bounds; [|exact Hlines | lra].
    intros b. apply factor_bounds, Forall_list_filter, Hrates.
Qed.

(** ** The properties at work on the sample store *)

Module Tour.
Import Sample.

Definition john_dune : Order := order_of 0 Scenario.dune_ordered.
Definition john_after_dune : Customer := Scenario.customer_at 0 Scenario.dune_ordered.

(** John holds the tenure discount twice. *)
Definition tenure_twice : MasterData :=
  after (select_and_place_order "john_doe" [("Dune"%string, 1)])
        (after (discount_one_year_customers now 1) Twice.tenure_assigned).

(** John ordered a book that does not exist after one that does. *)
Definition missing_second : MasterData :=
  after (select_and_place_order "john_doe"
           [("Dune"%string, 1); ("Neuromancer"%string, 2)]) Twice.tenure_assigned.

(** A geocoder that knows Paris only. *)
Definition paris_only (place : string) : option (Q * Q) :=
  if String.eqb place "paris" then Some (4885 # 100, 235 # 100)%Q else None.

Definition flat (a b : Q * Q) : Q := 878%Q.

(** John's order of one Dune, with the counter of the tenure discount at 0. *)
Definition tenure_used_up : MasterData :=
  with_md_discounts Scenario.dune_ordered
    (<[0%nat := with_nb_usage tenure 0]> (md_discounts Scenario.dune_ordered)).

End Tour.

(** The tenure discount applies to John's order of one Dune whether its
    counter is 1 or 0. *)
Lemma price_ignores_usage_counters_witness :
  Sample.usage_of 0 Scenario.dune_ordered = Some 1 /\
  Sample.usage_of 0 Tour.tenure_used_up = Some 0 /\
  (calculate_total_price Sample.distance Sample.now Tour.john_dune Tour.tenure_used_up).1
  = (calculate_total_price Sample.distance Sample.now Tour.john_dune
                           Scenario.dune_ordered).1.
Proof.
  split; [vm_compute; reflexivity|]. split; [vm_compute; reflexivity|].
  apply (price_ignores_usage_counters Sample.distance Sample.now Tour.john_dune
           Scenario.dune_ordered Tour.tenure_used_up 0%nat Tour.john_after_dune
           [(Sample.dune, 1)]).
  - vm_compute. reflexivity.
  - vm_compute. reflexivity.
  - vm_compute. reflexivity.
  - vm_compute. repeat constructor; eexists; eexists; split; reflexivity.
  - vm_compute. reflexivity.
  - intros j d Hj.
    destruct j as [|[|[|[|[|j]]]]]; vm_compute in Hj; try discriminate Hj;
      injection Hj as <-; eexists; vm_compute; reflexivity.
Defined.

Lemma calculate_total_price_frame_witness :
  framed Scenario.dune_ordered 0
         (calculate_total_price Sample.distance Sample.now Tour.john_dune
                                Scenario.dune_ordered).2.
Proof.
  apply (calculate_total_price_frame Sample.distance Sample.now Tour.john_dune
           Scenario.dune_ordered 0%nat).
  vm_compute. reflexivity.
Defined.

Lemma general_discount_usage_witness :
  Sample.discounts_of 0 Tour.tenure_twice = [Some 0%nat; Some 0%nat] /\
  exists price s',
    calculate_total_price Sample.distance Sample.now
                          (Sample.order_of 0 Tour.tenure_twice) Tour.tenure_twice
    = (Return price, s') /\
    md_discounts s' !! 0%nat = Some (with_nb_usage Sample.tenure (-1)) /\
    ~ holds_ref 0 (Some 0%nat) s'.
Proof.
  split; [vm_compute; reflexivity|].
  destruct (general_discount_usage Sample.distance Sample.now
              (Sample.order_of 0 Tour.tenure_twice) Tour.tenure_twice 0%nat
              (Scenario.customer_at 0 Tour.tenure_twice) [(Sample.dune, 1)]
              0%nat Sample.tenure)
    as (price & s' & Hrun & Hd & Hh).
  - vm_compute. reflexivity.
  - vm_compute. reflexivity.
  - apply (bool_decide_unpack _). vm_compute. exact I.
  - vm_compute. repeat constructor; eexists; eexists; split; reflexivity.
  - vm_compute. reflexivity.
  - vm_compute. reflexivity.
  - vm_compute. reflexivity.
  - vm_compute. reflexivity.
  - exists price, s'. split; [exact Hrun|]. split; [exact Hd|].
    rewrite Hh. intros [_ Hn]. apply Hn. vm_compute. split; discriminate.
Defined.

Lemma calculate_total_price_no_customer_witness :
  calculate_total_price Sample.distance Sample.now (mkOrder [(Some Sample.dune, 1)] None)
                        Sample.store = (Raise AttributeError, Sample.store).
Proof.
  apply (calculate_total_price_no_customer Sample.distance Sample.now
           (mkOrder [(Some Sample.dune, 1)] None) Sample.store).
  reflexivity.
Defined.

Lemma calculate_total_price_none_reference_witness :
  let s := Sample.after (discount_one_year_customers Sample.now 99) Sample.store in
  Sample.discounts_of 0 s = [None] /\
  calculate_total_price Sample.distance Sample.now
                        (mkOrder [(Some Sample.dune, 1)] (Some 0%nat)) s
  = (Raise AttributeError, s).
Proof.
  split; [vm_compute; reflexivity|].
  apply (calculate_total_price_none_reference Sample.distance Sample.now
           (mkOrder [(Some Sample.dune, 1)] (Some 0%nat))
           (Sample.after (discount_one_year_customers Sample.now 99) Sample.store)
           0%nat (with_discounts Sample.john [None])).
  - vm_compute. reflexivity.
  - vm_compute. reflexivity.
  - repeat constructor.
  - simpl. left.
Defined.

Lemma calculate_total_price_missing_book_witness :
  o_books (Sample.order_of 0 Tour.missing_second) = [(Some Sample.dune, 1); (None, 2)] /\
  exists asd total s1,
    author_specific_discounts Sample.now (Sample.order_of 0 Tour.missing_second)
                              Tour.missing_second = (Return asd, Tour.missing_second) /\
    foldM (price_line (Sample.order_of 0 Tour.missing_second) asd)
          (found_lines [(Sample.dune, 1)]) 0%Q Tour.missing_second = (Return total, s1) /\
    calculate_total_price Sample.distance Sample.now
                          (Sample.order_of 0 Tour.missing_second) Tour.missing_second
    = (Raise AttributeError, s1).
Proof.
  split; [vm_compute; reflexivity|].
  apply (calculate_total_price_missing_book Sample.distance Sample.now
           (Sample.order_of 0 Tour.missing_second) Tour.missing_second 0%nat
           (Scenario.customer_at 0 Tour.missing_second) [(Sample.dune, 1)] 2 []).
  - vm_compute. reflexivity.
  - vm_compute. reflexivity.
  - vm_compute. repeat constructor; eexists; eexists; split; reflexivity.
  - vm_compute. reflexivity.
Defined.

Lemma no_valid_discount_plain_price_witness :
  let late := mkdatetime (mkdate 2031 1 1) 0 in
  calculate_total_price Sample.distance late Tour.john_dune Scenario.dune_ordered =
  (Return (round2 ((0 + (1495 # 100) * 1 * inject_Z 1)
                   + shipping_cost Sample.distance "paris" "berlin")),
   Scenario.dune_ordered).
Proof.
  intros late.
  rewrite (no_valid_discount_plain_price Sample.distance late Tour.john_dune
             Scenario.dune_ordered 0%nat Tour.john_after_dune [(Sample.dune, 1)]).
  - vm_compute. reflexivity.
  - vm_compute. reflexivity.
  - vm_compute. reflexivity.
  - replace (c_discounts Tour.john_after_dune) with [Some 0%nat; Some 4%nat]
      by (vm_compute; reflexivity).
    repeat constructor.
    + exists Sample.tenure. split; [exists 0%nat; split|]; vm_compute; reflexivity.
    + exists Sample.expired. split; [exists 4%nat; split|]; vm_compute; reflexivity.
  - vm_compute. reflexivity.
Defined.

Lemma discount_one_year_customers_effect_witness :
  let s' := (discount_one_year_customers Sample.now 1 Sample.store).2 in
  md_customers s' !! 0%nat = Some (with_discounts Sample.john [Some 0%nat]) /\
  md_customers s' !! 2%nat = Some Sample.pierre.
Proof.
  split.
  - apply (discount_one_year_customers_effect Sample.now 1 Sample.store 0%nat Sample.john).
    + vm_compute. reflexivity.
    + vm_compute. discriminate.
  - apply (discount_one_year_customers_effect Sample.now 1 Sample.store 2%nat Sample.pierre).
    + vm_compute. reflexivity.
    + vm_compute. reflexivity.
Defined.

Lemma discount_black_friday_effect_witness :
  discount_black_friday Sample.now 2 Sample.store = (Return tt, Sample.store) /\
  md_customers (discount_black_friday Sample.black_friday 2 Sample.store).2 !! 0%nat
  = Some (with_discounts Sample.john [Some 1%nat]).
Proof.
  split.
  - apply (discount_black_friday_effect Sample.now 2 Sample.store).
    left. vm_compute. discriminate.
  - apply (discount_black_friday_effect Sample.black_friday 2 Sample.store);
      vm_compute; reflexivity.
Defined.

Lemma discount_location_effect_witness :
  let s' := (discount_location 2 "Berlin" Sample.store).2 in
  md_customers s' !! 0%nat = Some (with_discounts Sample.john [Some 1%nat]) /\
  md_customers s' !! 2%nat = Some Sample.pierre.
Proof.
  split.
  - apply (discount_location_effect 2 "Berlin" Sample.store 0%nat Sample.john);
      vm_compute; reflexivity.
  - apply (discount_location_effect 2 "Berlin" Sample.store 2%nat Sample.pierre).
    + vm_compute. reflexivity.
    + vm_compute. reflexivity.
    + vm_compute. reflexivity.
    + vm_compute. discriminate.
Defined.

Lemma discount_one_year_customers_twice_witness :
  exists s2,
    bind (discount_one_year_customers Sample.now 1)
         (fun _ => discount_one_year_customers Sample.now 1) Sample.store
    = (Return tt, s2) /\
    md_customers s2 !! 0%nat = Some (with_discounts Sample.john [Some 0%nat; Some 0%nat]).
Proof.
  apply (discount_one_year_customers_twice Sample.now 1 Sample.store 0%nat Sample.john).
  - vm_compute. reflexivity.
  - vm_compute. discriminate.
Defined.

Lemma discount_specific_author_effect_witness :
  exists d s',
    md_discounts Sample.store !! 2%nat = Some d /\ d_id d = 3 /\
    discount_specific_author 3 "Douglas Adams" Sample.store = (Return tt, s') /\
    md_discounts s' =
    <[2%nat := with_author_specific d (Some "Douglas Adams"%string)]>
      (md_discounts Sample.store) /\
    md_books s' = md_books Sample.store /\
    forall c cu, md_customers Sample.store !! c = Some cu ->
                 md_customers s' !! c =
                 Some (with_discounts cu (c_discounts cu ++ [Some 2%nat])).
Proof.
  apply (discount_specific_author_effect 3 "Douglas Adams" Sample.store 2%nat).
  reflexivity.
Defined.

Lemma discount_specific_author_twice_witness :
  exists d s',
    md_discounts Sample.store !! 2%nat = Some d /\
    bind (discount_specific_author 3 "Douglas Adams")
         (fun _ => discount_specific_author 3 "Frank Herbert") Sample.store
    = (Return tt, s') /\
    md_discounts s' !! 2%nat = Some (with_author_specific d (Some "Frank Herbert"%string)) /\
    forall c cu, md_customers Sample.store !! c = Some cu ->
                 md_customers s' !! c =
                 Some (with_discounts cu (c_discounts cu ++ [Some 2%nat; Some 2%nat])).
Proof.
  apply (discount_specific_author_twice 3 "Douglas Adams" "Frank Herbert"
           Sample.store 2%nat).
  reflexivity.
Defined.

Lemma place_order_effect_witness :
  exists s',
    place_order 0 [(Some Sample.dune, 2)] Sample.store = (Return tt, s') /\
    md_customers s' !! 0%nat =
    Some (with_order Sample.john (Some (mkOrder [(Some Sample.dune, 2)] (Some 0%nat)))) /\
    (forall c', c' <> 0%nat -> md_customers s' !! c' = md_customers Sample.store !! c') /\
    md_books s' = md_books Sample.store /\ md_discounts s' = md_discounts Sample.store.
Proof.
  apply (place_order_effect 0 Sample.john [(Some Sample.dune, 2)] Sample.store).
  reflexivity.
Defined.

Lemma place_order_replaces_witness :
  bind (place_order 0 [(Some Sample.guide, 1)])
       (fun _ => place_order 0 [(Some Sample.dune, 2)]) Sample.store =
  place_order 0 [(Some Sample.dune, 2)] Sample.store.
Proof.
  apply (place_order_replaces 0 Sample.john [(Some Sample.guide, 1)]
           [(Some Sample.dune, 2)] Sample.store).
  reflexivity.
Defined.

Lemma unknown_place_ships_free_witness :
  exists total s',
    total_before_shipping Sample.now Tour.john_dune Scenario.dune_ordered
    = (Return total, s') /\
    calculate_total_price (calculate_distance Tour.paris_only Tour.flat) Sample.now
                          Tour.john_dune Scenario.dune_ordered
    = (Return (round2 (total + 0)), s').
Proof.
  destruct (total_before_shipping_formula Sample.now Tour.john_dune
              Scenario.dune_ordered 0%nat Tour.john_after_dune [(Sample.dune, 1)])
    as (s' & Hrun).
  - vm_compute. reflexivity.
  - vm_compute. reflexivity.
  - vm_compute. repeat constructor; eexists; eexists; split; reflexivity.
  - vm_compute. reflexivity.
  - eexists. exists s'. split; [exact Hrun|].
    apply (unknown_place_ships_free Tour.paris_only Tour.flat Sample.now Tour.john_dune
             Scenario.dune_ordered 0%nat Tour.john_after_dune _ s').
    + vm_compute. reflexivity.
    + vm_compute. reflexivity.
    + right. reflexivity.
    + exact Hrun.
Defined.

Lemma unknown_id_rule_breaks_pricing_witness :
  let s1 := (discount_one_year_customers Sample.now 99 Sample.store).2 in
  calculate_total_price Sample.distance Sample.now
                        (mkOrder [(Some Sample.dune, 1)] (Some 0%nat)) s1
  = (Raise AttributeError, s1).
Proof.
  apply (unknown_id_rule_breaks_pricing Sample.distance Sample.now Sample.now 99
           (mkOrder [(Some Sample.dune, 1)] (Some 0%nat)) Sample.store 0%nat Sample.john).
  - vm_compute. repeat constructor; discriminate.
  - vm_compute. reflexivity.
  - vm_compute. discriminate.
  - constructor.
  - vm_compute. reflexivity.
Defined.

Lemma discounts_never_raise_the_total_witness :
  exists total s',
    total_before_shipping Sample.now Tour.john_dune Scenario.dune_ordered
    = (Return total, s') /\
    (0 <= total <= lines_sum (fun _ => 1%Q) [(Sample.dune, 1%Z)] 0)%Q.
Proof.
  apply (discounts_never_raise_the_total Sample.now Tour.john_dune Scenario.dune_ordered
           0%nat Tour.john_after_dune [(Sample.dune, 1)]).
  - vm_compute. reflexivity.
  - vm_compute. reflexivity.
  - vm_compute. repeat constructor; eexists; eexists; split; reflexivity.
  - vm_compute. reflexivity.
  - vm_compute. repeat constructor; discriminate.
  - repeat constructor; vm_compute; discriminate.
Defined.

(** ** The counter of an author-scoped discount *)

(** As [next_or_none_running], with the position of what was found. *)
Lemma next_or_none_found s c s1 asd b :
  running s c s1 -> Forall (resolvable s) asd ->
  let q := fun d => eq_author (d_author_specific d) (b_author b) in
  exists psd,
    next_or_none
      (fun discount =>
         bind (deref discount)
              (fun d => bind (attr (Some b))
                             (fun b0 => ret (eq_author (d_author_specific d) (b_author b0)))))
      asd s1 = (Return psd, s1) /\
    ((psd = None /\ List.find q (discounts_at s asd) = None) \/
     (exists j d, psd = Some j /\ md_discounts s !! j = Some d /\
                  List.find q (discounts_at s asd) = Some d)).
Proof.
  intros Hrun Hall q. induction Hall as [|r asd [d Hd] _ IH].
  - exists None. split; [reflexivity|]. left. auto.
  - pose proof Hd as (j & -> & Hj).
    destruct (running_lookup s c s1 j d Hrun Hj) as [n Hn].
    rewrite (discounts_at_cons s (Some j) asd d Hd). simpl List.find. simpl next_or_none.
    assert (Htest : bind (deref (Some j))
                         (fun d0 => bind (attr (Some b))
                                         (fun b0 => ret (eq_author (d_author_specific d0)
                                                                   (b_author b0)))) s1
                    = (Return (q d), s1)).
    { rewrite (bind_Return _ _ _ _ _ (deref_Some j _ s1 Hn)). reflexivity. }
    rewrite (bind_Return _ _ _ _ _ Htest).
    destruct (q d) eqn:Hq.
    + exists (Some j). split; [reflexivity|]. right. exists j, d. auto.
    + exact IH.
Qed.

(** The lines whose first matching discount, among [asd], is [d]. *)
Definition matched_lines (asd : list Discount) (d : Discount)
           (lines : list (Book * Z)) : Z :=
  Z.of_nat (length (List.filter
                      (fun line =>
                         match List.find (fun x => eq_author (d_author_specific x)
                                                             (b_author line.1)) asd with
                         | Some x => bool_decide (d_id x = d_id d)
                         | None => false
                         end) lines)).

Lemma matched_lines_nonneg asd d lines : 0 <= matched_lines asd d lines.
Proof. unfold matched_lines. lia. Qed.

(** The loop over the lines, seen from the discount stored at [i]: one
    decrement for each line it is the first match of. *)
Lemma price_lines_tracks self s c i d0 asd lines :
  o_customer self = Some c -> unique_ids s -> Forall (resolvable s) asd ->
  md_discounts s !! i = Some d0 ->
  forall acc s1 d h,
    running s c s1 -> tracked c i d h s1 ->
    exists total s2,
      foldM (price_line self asd) (found_lines lines) acc s1 = (Return total, s2) /\
      running s c s2 /\
      let k := matched_lines (discounts_at s asd) d0 lines in
      tracked c i (with_nb_usage d (d_nb_usage d - k))
              (h /\ ~ (1 <= d_nb_usage d <= k)) s2.
Proof.
  intros Hc Hu Hall Hi0. induction lines as [|[b q] lines IH]; intros acc s1 d h Hrun Ht.
  - exists acc, s1. split; [reflexivity|]. split; [exact Hrun|].
    unfold matched_lines. simpl. rewrite Z.sub_0_r, with_nb_usage_same.
    eapply tracked_iff; [|exact Ht]. intuition lia.
  - destruct (next_or_none_found s c s1 asd b Hrun Hall) as (psd & Hnext & Hpsd).
    pose proof (matched_lines_nonneg (discounts_at s asd) d0 lines) as Hk.
    assert (Hcons : forall (m : bool),
               (match List.find (fun x => eq_author (d_author_specific x) (b_author b))
                                (discounts_at s asd) with
                | Some x => bool_decide (d_id x = d_id d0)
                | None => false
                end) = m ->
               matched_lines (discounts_at s asd) d0 ((b, q) :: lines) =
               (if m then 1 else 0) + matched_lines (discounts_at s asd) d0 lines).
    { intros m Hm. unfold matched_lines. simpl List.filter. simpl fst. rewrite Hm.
      destruct m; [simpl length|]; lia. }
    destruct Hpsd as [[-> Hfind]|(j & dj & -> & Hj & Hfind)].
    + (* no discount for this line *)
      assert (Hline : price_line self asd acc (Some b, q) s1 =
                      (Return (acc + b_price b * 1 * inject_Z q)%Q, s1)).
      { unfold price_line. simpl fst. simpl snd.
        rewrite (bind_Return _ _ _ _ _ Hnext).
        rewrite (bind_Return _ _ _ 1%Q s1) by reflexivity.
        rewrite (bind_Return _ _ _ b s1) by reflexivity. reflexivity. }
      destruct (IH (acc + b_price b * 1 * inject_Z q)%Q s1 d h Hrun Ht)
        as (total & s2 & Hrest & Hrun2 & Ht2).
      exists total, s2. split; [|split; [exact Hrun2|]].
      * simpl foldM. rewrite (bind_Return _ _ _ _ _ Hline). exact Hrest.
      * rewrite (Hcons false) by (rewrite Hfind; reflexivity).
        change (if false then 1 else 0) with 0.
        replace (0 + matched_lines (discounts_at s asd) d0 lines)
          with (matched_lines (discounts_at s asd) d0 lines) by lia.
        exact Ht2.
    + (* the discount stored at [j] is used *)
      destruct (running_lookup s c s1 j dj Hrun Hj) as [n Hn].
      destruct Hrun as (Hag & Hok & Hlen).
      destruct (use_discount_step self c i j s1 d h Hc Hok (mk_is_Some _ _ Hn) Ht)
        as (s1' & Huse & Hok' & Hlen' & Ht').
      assert (Hrun' : running s c s1').
      { destruct (use_discount_running self s c s1 j Hc (conj Hag (conj Hok Hlen))
                    (mk_is_Some _ _ Hn)) as (sx & Hx & Hrunx).
        rewrite Huse in Hx. injection Hx as <-. exact Hrunx. }
      assert (Hline : price_line self asd acc (Some b, q) s1 =
                      (Return (acc + b_price b * (1 - d_amount dj) * inject_Z q)%Q, s1')).
      { unfold price_line. simpl fst. simpl snd.
        rewrite (bind_Return _ _ _ _ _ Hnext).
        rewrite (bind_Return _ _ _ (1 - d_amount dj)%Q s1)
          by (rewrite (bind_Return _ _ _ _ _ (deref_Some j _ s1 Hn)); reflexivity).
        rewrite (bind_Return _ _ _ b s1) by reflexivity.
        rewrite (bind_Return _ _ _ _ _ Huse). reflexivity. }
      destruct (IH (acc + b_price b * (1 - d_amount dj) * inject_Z q)%Q s1' _ _ Hrun' Ht')
        as (total & s2 & Hrest & Hrun2 & Ht2).
      exists total, s2. split; [|split; [exact Hrun2|]].
      * simpl foldM. rewrite (bind_Return _ _ _ _ _ Hline). exact Hrest.
      * destruct (decide (j = i)) as [->|Hne].
        -- assert (dj = d0) by congruence. subst dj.
           rewrite (Hcons true)
             by (rewrite Hfind; apply bool_decide_eq_true; reflexivity).
           change (if true then 1 else 0) with 1. cbv zeta.
           simpl in Ht2.
           replace (d_nb_usage d - (1 + matched_lines (discounts_at s asd) d0 lines))
             with (d_nb_usage d - 1 - matched_lines (discounts_at s asd) d0 lines) by lia.
           eapply tracked_iff; [|exact Ht2]. intuition lia.
        -- assert (Hid : d_id dj <> d_id d0).
           { intros Heq. apply Hne. apply (NoDup_lookup _ j i (d_id dj) Hu).
             - rewrite list_lookup_fmap, Hj. reflexivity.
             - rewrite list_lookup_fmap, Hi0, Heq. reflexivity. }
           rewrite (Hcons false)
             by (rewrite Hfind; apply bool_decide_eq_false; exact Hid).
           change (if false then 1 else 0) with 0. cbv zeta.
           replace (d_nb_usage d - (0 + matched_lines (discounts_at s asd) d0 lines))
             with (d_nb_usage d - matched_lines (discounts_at s asd) d0 lines) by lia.
           exact Ht2.
Qed.

(** X25. One calculation decrements a valid author-scoped discount once for
    each line it is the first match of, whatever its counter, and the
    customer holds it afterwards unless the counter passed through 0. *)
Theorem author_discount_usage dist now self s c cu lines i d :
  o_customer self = Some c -> md_customers s !! c = Some cu ->
  unique_ids s -> Forall (resolvable s) (c_discounts cu) ->
  o_books self = found_lines lines ->
  md_discounts s !! i = Some d ->
  valid now d = true -> truthy (d_author_specific d) = true ->
  let k := matched_lines
             (List.filter (author_scoped now) (discounts_at s (c_discounts cu))) d lines in
  exists price s',
    calculate_total_price dist now self s = (Return price, s') /\
    md_discounts s' !! i = Some (with_nb_usage d (d_nb_usage d - k)) /\
    (holds_ref c (Some i) s' <->
     Some i ∈ c_discounts cu /\ ~ (1 <= d_nb_usage d <= k)).
Proof.
  intros Hc Hcu Hu Hall Hbooks Hi Hvalid Hscope k.
  set (asd := filter (fun r => ref_sat (author_scoped now) s r = true) (c_discounts cu)).
  set (vd := filter (fun r => ref_sat (general now) s r = true) (c_discounts cu)).
  assert (Hasd : Forall (resolvable s) asd) by (apply Forall_resolvable_filter, Hall).
  assert (Hvd : Forall (resolvable s) vd) by (apply Forall_resolvable_filter, Hall).
  assert (Hk : matched_lines (discounts_at s asd) d lines = k)
    by (subst k asd; rewrite (discounts_at_filter _ s _ Hall); reflexivity).
  assert (Ht : tracked c i d (Some i ∈ c_discounts cu) s).
  { split; [exact Hu|]. split; [exact Hi|]. split.
    - intros (cu' & Hcu' & Hin). assert (cu' = cu) by congruence. subst cu'. exact Hin.
    - intros Hin. exists cu. auto. }
  destruct (price_lines_tracks self s c i d asd lines Hc Hu Hasd Hi 0%Q s d _
              (running_start s c cu Hcu Hall) Ht)
    as (total & s1 & Hlines & (Hag1 & Hok1 & Hlen1) & Ht1).
  rewrite Hk in Ht1. cbv zeta in Ht1.
  assert (Hvd1 : Forall (resolvable s1) vd).
  { eapply Forall_impl; [exact Hvd|]. intros r. apply resolvable_same_size, Hlen1. }
  destruct (apply_discounts_tracks self c i vd total s1 _ _ Hc Hok1 Hvd1 Ht1)
    as (t2 & s2 & Hloop & _ & _ & Ht2 & _).
  assert (Hocc : occurrences i vd = 0).
  { apply occurrences_absent. intros Hin. apply list_elem_of_filter in Hin as [Hin _].
    simpl in Hin. rewrite Hi in Hin. unfold general in Hin.
    rewrite Hscope, andb_false_r in Hin. discriminate. }
  rewrite Hocc in Ht2. simpl d_nb_usage in Ht2. rewrite Z.sub_0_r in Ht2.
  assert (Hrun : total_before_shipping now self s = (Return t2, s2)).
  { unfold total_before_shipping.
    rewrite author_specific_discounts_held, valid_discounts_held.
    rewrite (bind_Return _ _ _ _ _
               (held_refs_run (author_scoped now) self c cu s Hc Hcu Hall)).
    rewrite (bind_Return _ _ _ _ _ (held_refs_run (general now) self c cu s Hc Hcu Hall)).
    fold asd. fold vd. unfold price_lines.
    rewrite Hbooks, (bind_Return _ _ _ _ _ Hlines). exact Hloop. }
  destruct (calculate_total_price_returns dist now self s t2 s2 Hrun) as (price & Hcalc).
  exists price, s2. split; [exact Hcalc|].
  destruct Ht2 as (_ & Hi2 & Hh2). split; [exact Hi2|].
  rewrite Hh2. intuition lia.
Qed.

Lemma author_discount_usage_witness :
  let s := Sample.after
             (select_and_place_order "john_doe"
                [("The Hitchhiker's Guide to the Galaxy"%string, 1);
                 ("Dune"%string, 1);
                 ("The Restaurant at the End of the Universe"%string, 1)])
             (Sample.after (discount_specific_author 3 "Douglas Adams") Sample.store) in
  Sample.discounts_of 0 s = [Some 2%nat] /\ Sample.usage_of 2 s = Some 1 /\
  exists price s',
    calculate_total_price Sample.distance Sample.now (Sample.order_of 0 s) s
    = (Return price, s') /\
    Sample.usage_of 2 s' = Some (-1) /\ ~ holds_ref 0 (Some 2%nat) s'.
Proof.
  intros s.
  split; [vm_compute; reflexivity|]. split; [vm_compute; reflexivity|].
  destruct (author_discount_usage Sample.distance Sample.now (Sample.order_of 0 s) s
              0%nat (Scenario.customer_at 0 s)
              [(Sample.guide, 1); (Sample.dune, 1); (Sample.restaurant, 1)] 2%nat
              (with_author_specific Sample.adams (Some "Douglas Adams"%string)))
    as (price & s' & Hrun & Hd & Hh).
  - vm_compute. reflexivity.
  - vm_compute. reflexivity.
  - apply (bool_decide_unpack _). vm_compute. exact I.
  - vm_compute. repeat constructor; eexists; eexists; split; reflexivity.
  - vm_compute. reflexivity.
  - vm_compute. reflexivity.
  - vm_compute. reflexivity.
  - vm_compute. reflexivity.
  - exists price, s'. split; [exact Hrun|]. split.
    + unfold Sample.usage_of. rewrite Hd. vm_compute. reflexivity.
    + rewrite Hh. intros [_ Hn]. apply Hn. vm_compute. split; discriminate.
Defined.
